(** * Materiality_of_ML, Archive_Assignmnet2: the two utility scripts

    [download_data.py] streams an NDJSON file and keeps the first lines that
    parse as JSON; [scraping_covers.py] scrolls a playlist page, polls the
    thumbnail elements for their [src], downloads every image and crops it
    to 16:9.

    The scripts are embedded as Rocq functions over an explicit world: the
    lines a text stream yields, the files on disk (a finite map from paths to
    bytes), the console (a list of messages), and the external collaborators
    (JSON parser, HTTP transport, image codec, browser) as parameters. *)

From Stdlib Require Import Ascii.
From stdpp Require Import gmap strings list fin_maps pretty sorting.

(** * Part I. The programs *)

(** ** download_data.py *)

Definition DATA_URL : string :=
  "https://storage.googleapis.com/quickdraw_dataset/full/simplified/flower.ndjson".
Definition OUTPUT_FILENAME : string := "flower_data_local.ndjson".
Definition MAX_LINES_TO_SAVE : nat := 500.

(** What [urllib.request.urlopen] gives: a [URLError], or a response whose
    [TextIOWrapper] yields the given lines, each with its line terminator,
    and then either ends ([None]) or raises while the next line is read (a
    reset connection, bytes that are not UTF-8). *)
Inductive source :=
  | Unreachable (reason : string)
  | Stream (text_stream : list string) (failure : option string).

(** The console lines of the script; the f-string arguments are kept. *)
Inductive notice :=
  | Starting (url : string)
  | SkippingMalformed (count : nat)
  | Success (count : nat) (filename : string)
  | OpenInVSCode (filename : string)
  | ErrorConnecting (reason : string)
  | UnexpectedError (e : string).

(** The variables the line loop updates: what [outfile.write] received so
    far (one entry per call), [lines_saved], and the console. *)
Record saver := Saver {
  outfile : list string;
  lines_saved : nat;
  printed : list notice
}.

Section download_data.
(** [json.loads line]: [true] when it returns, [false] when it raises
    [json.JSONDecodeError]. *)
Variable json_loads : string → bool.

(** [for line in text_stream], with the limit as an argument: the variables
    when the loop is left, and the exception that left it, if any. *)
Fixpoint line_loop (limit : nat) (text_stream : list string) (failure : option string)
    (st : saver) : saver * option string :=
  match text_stream with
  | [] => (st, failure)
  | line :: rest =>
      if (limit <=? lines_saved st)%nat then (st, None)
      else if json_loads line then
        line_loop limit rest failure
          (Saver (outfile st ++ [line]) (S (lines_saved st)) (printed st))
      else
        line_loop limit rest failure
          (Saver (outfile st) (lines_saved st)
             (printed st ++ [SkippingMalformed (lines_saved st)]))
  end.

(** The whole script: the local file it leaves ([None] when [open] was
    never reached) and the console. *)
Definition download_data (src : source) : option (list string) * list notice :=
  match src with
  | Unreachable reason =>
      (None, [Starting DATA_URL; ErrorConnecting reason])
  | Stream text_stream failure =>
      let ended := line_loop MAX_LINES_TO_SAVE text_stream failure (Saver [] 0 []) in
      let st := fst ended in
      (Some (outfile st),
       Starting DATA_URL :: printed st ++
         match snd ended with
         | None =>
             [Success (lines_saved st) OUTPUT_FILENAME; OpenInVSCode OUTPUT_FILENAME]
         | Some e => [UnexpectedError e]
         end)
  end.

(** The lines of the output file after a run. *)
Definition saved_lines (src : source) : list string :=
  default [] (fst (download_data src)).
End download_data.

(** ** scraping_covers.py *)

Definition PLAYLIST_URL : string :=
  "https://www.youtube.com/playlist?list=PL3-sRm8xAzY9gpXTMGVHJWy_FMD67NBed".
Definition THUMBNAIL_SELECTOR : string := "ytd-playlist-video-renderer ytd-thumbnail img".
Definition OUTPUT_DIR : string := "youtube_thumbnails".
Definition VIDEO_ROW_SELECTOR : string := "ytd-playlist-video-renderer".

(** *** Python strings and truth values *)

(** [s.startswith(prefix)] and [s.endswith(suffix)]. *)
Fixpoint startswith (s prefix : string) {struct prefix} : bool :=
  match prefix, s with
  | EmptyString, _ => true
  | String _ _, EmptyString => false
  | String p prefix, String c s => Ascii.eqb c p && startswith s prefix
  end.
Definition endswith (s suffix : string) : bool :=
  startswith (String.rev s) (String.rev suffix).

(** [s.split(sep)] for a one-character separator: never empty. *)
Fixpoint split (sep : Ascii.ascii) (s : string) : list string :=
  match s with
  | EmptyString => [EmptyString]
  | String c rest =>
      if Ascii.eqb c sep then EmptyString :: split sep rest
      else match split sep rest with
           | piece :: pieces => String c piece :: pieces
           | [] => [String c EmptyString]
           end
  end.

(** [parts[0]] and [parts[-1]] of a split. *)
Definition first_part (parts : list string) : string := default "" (head parts).
Definition last_part (parts : list string) : string := default "" (last parts).

(** The truth value of an [Optional[str]]: [None] and [""] are false. *)
Definition truthy (o : option string) : bool :=
  match o with
  | Some (String _ _) => true
  | _ => false
  end.

(** [os.path.join(a, b)] of posixpath. *)
Definition path_join (a b : string) : string :=
  if startswith b "/" then b
  else if bool_decide (a = "") || endswith a "/" then a +:+ b
  else a +:+ "/" +:+ b.

(** *** Images *)

Definition pixel : Type := Z.
Definition blank : pixel := 0%Z.

(** A decoded image: [img.size] is ([img_width], number of rows). *)
Record image := Image { img_width : Z; img_rows : list (list pixel) }.

Definition img_height (img : image) : Z := Z.of_nat (length (img_rows img)).
Definition size (img : image) : Z * Z := (img_width img, img_height img).

(** What every Pillow image satisfies: the width is not negative and every
    row has [img_width] pixels. *)
Definition well_formed (img : image) : Prop :=
  (0 ≤ img_width img)%Z ∧
  Forall (λ row, Z.of_nat (length row) = img_width img) (img_rows img).

(** The pixel at column [x], row [y]; blank outside the image. *)
Definition getpixel (img : image) (x y : Z) : pixel :=
  if decide (0 ≤ x ∧ 0 ≤ y)%Z then
    default blank (img_rows img !! Z.to_nat y ≫= (.!! Z.to_nat x))
  else blank.

(** [img.crop((left, upper, right, lower))], here [(x0, upper, x1, lower)]:
    the region, padded with blank pixels where it leaves the image; [None]
    stands for the [ValueError] of a box whose right or lower edge comes
    before the left or upper one. *)
Definition crop (img : image) (box : Z * Z * Z * Z) : option image :=
  let '(x0, upper, x1, lower) := box in
  if decide (x1 < x0 ∨ lower < upper)%Z then None
  else Some (Image (x1 - x0)
    ((λ y, (λ x, getpixel img x y) <$> seqZ x0 (x1 - x0))
       <$> seqZ upper (lower - upper))).

(** *** The world of the scraper *)

Inductive message :=
  | Cropped (width target_height : Z)
  | SkippingCrop
  | ErrorProcessing (file_path : string)
  | EmptyURL
  | Downloaded (local_path : string)
  | FailedDownload (url : string)
  | Scrolling
  | LoadedSoFar (current_video_count : nat)
  | NoNewVideos (remaining : Z)
  | FinishedScrolling (last_video_count : nat)
  | Navigating (url : string)
  | NoImagesFound
  | FoundElements (n : nat)
  | SkippingVideo (ordinal : nat) (max_wait_time : Z)
  | ScrapingComplete (downloaded_count : nat) (dir : string).

(** What the script does to the outside, in order. *)
Inductive event :=
  | Print (m : message)
  | Get (url : string)                 (* requests.get(url, stream=True, timeout=10) *)
  | Wrote (path : string)              (* a file opened for writing, or saved *)
  | Sleep (seconds : Z)                (* time.sleep *)
  | GetAttribute (name : string)       (* img_element.get_attribute *)
  | ScrollToBottom                     (* page.evaluate("window.scrollTo(...)") *)
  | CountRows.                         (* page.locator(VIDEO_ROW_SELECTOR).all() *)

Record world := World {
  disk : gmap string (list Byte.byte);
  trace : list event
}.

Definition emit (e : event) (w : world) : world := World (disk w) (trace w ++ [e]).
Definition say (m : message) (w : world) : world := emit (Print m) w.
Definition write_file (path : string) (content : list Byte.byte) (w : world) : world :=
  World (<[path := content]> (disk w)) (trace w ++ [Wrote path]).

(** The events of a run that took the world from [w] to [w']. *)
Definition since (w w' : world) : list event := drop (length (trace w)) (trace w').

(** How often an attribute was read, and the seconds slept, in some events. *)
Definition is_read (e : event) : bool :=
  match e with GetAttribute _ => true | _ => false end.
Definition reads (events : list event) : nat := length (filter is_read events).
Definition slept (events : list event) : Z :=
  foldr (λ e total, match e with Sleep seconds => seconds + total | _ => total end)%Z
    0%Z events.

(** The events of [n] attempts that found nothing: a read, then a sleep. *)
Definition idle_polls (n : nat) : list event :=
  mjoin (replicate n [GetAttribute "src"; Sleep 1]).

(** The paths written, and the paths reported as downloaded, in some events. *)
Definition written_paths (events : list event) : list string :=
  omap (λ e, match e with Wrote path => Some path | _ => None end) events.
Definition downloaded_paths (events : list event) : list string :=
  omap (λ e, match e with Print (Downloaded path) => Some path | _ => None end) events.

(** Whether a character occurs in a string. *)
Fixpoint occurs (c : Ascii.ascii) (s : string) : bool :=
  match s with
  | EmptyString => false
  | String c' rest => Ascii.eqb c' c || occurs c rest
  end.

(** The answer of [requests.get] and of reading its body: a
    [RequestException] before any response, or a response with its status
    code and the chunks [iter_content] yields, which may break off with a
    [RequestException] after them. *)
Inductive reply :=
  | NoResponse
  | Response (status_code : Z) (chunks : list (list Byte.byte)) (complete : bool).

(** A located element: what [get_attribute("src")] returns at its first,
    second, ... call. *)
Definition element : Type := nat → option string.

(** The rendered page: the number of video rows found at the first,
    second, ... count, and the thumbnail elements located afterwards. *)
Record page := Page {
  row_counts : nat → nat;
  thumbnails : list element
}.

(** The local variables of [scroll_to_end]; [attempts_made] only counts the
    iterations, to pick the next observation of the page. *)
Record scroller := Scroller {
  last_video_count : nat;
  consecutive_same_count : nat;
  attempts_made : nat
}.

Definition max_attempts : nat := 10.
Definition max_wait_time : Z := 5.
Definition wait_step : Z := 1.

(** The largest count seen in the attempts before attempt [k] (0 at the
    start), whether attempt [k] brings no growth over it, and the number of
    attempts without growth that immediately precede attempt [k]. *)
Fixpoint remembered (counts : nat → nat) (k : nat) : nat :=
  match k with
  | O => 0
  | S k => remembered counts k `max` counts k
  end.
Definition stalled (counts : nat → nat) (k : nat) : bool :=
  (counts k <=? remembered counts k)%nat.
Fixpoint stall_run (counts : nat → nat) (k : nat) : nat :=
  match k with
  | O => 0
  | S k => if stalled counts k then S (stall_run counts k) else 0
  end.

Section scraping_covers.
(** Pillow: [Image.open] on the bytes of a file ([None] when it raises),
    and the bytes [save] writes for an image. [save] is taken to succeed. *)
Variable Image_open : list Byte.byte → option image.
Variable Image_save : image → list Byte.byte.
(** requests: the answer for a URL. *)
Variable requests_get : string → reply.

(** [crop_to_16_9(file_path)]. In [int(width * 9 / 16)] the float quotient
    is exact for every width an image can have, and [int] truncates; any
    exception of Pillow ends in the error line. *)
Definition crop_to_16_9 (file_path : string) (w : world) : world :=
  match disk w !! file_path ≫= Image_open with
  | None => say (ErrorProcessing file_path) w
  | Some img =>
      let '(width, height) := size img in
      let target_height := ((width * 9) `quot` 16)%Z in
      if decide (height > target_height)%Z then
        let height_to_remove := (height - target_height)%Z in
        let top_margin := (height_to_remove `div` 2)%Z in
        let bottom_margin := (height - (height_to_remove - top_margin))%Z in
        let crop_box := (0%Z, top_margin, width, bottom_margin) in
        match crop img crop_box with
        | None => say (ErrorProcessing file_path) w
        | Some cropped_img =>
            say (Cropped width target_height)
              (write_file file_path (Image_save cropped_img) w)
        end
      else say SkippingCrop w
  end.

(** The body of [with open(local_path, "wb") as f]: the file is created
    empty, then grows chunk by chunk. Opening is taken to succeed. *)
Definition store_chunks (local_path : string) (chunks : list (list Byte.byte))
    (w : world) : world :=
  World (<[local_path := concat chunks]> (disk w)) (trace w ++ [Wrote local_path]).

(** [download_file(url, local_filename)]: the return value, [None] or the
    local path, and the world afterwards. *)
Definition download_file (url : option string) (local_filename : option string)
    (w : world) : option string * world :=
  match url with
  | Some (String _ _ as url) =>
      let local_filename :=
        match local_filename with
        | None => last_part (split "/"%char url)
        | Some name => name
        end in
      let local_path := path_join OUTPUT_DIR local_filename in
      let w := emit (Get url) w in
      match requests_get url with
      | NoResponse => (None, say (FailedDownload url) w)
      | Response status_code chunks complete =>
          if decide (400 ≤ status_code < 600)%Z then
            (None, say (FailedDownload url) w)
          else
            let w := store_chunks local_path chunks w in
            if complete then (Some local_path, say (Downloaded local_path) w)
            else (None, say (FailedDownload url) w)
      end
  | _ => (None, say EmptyURL w)
  end.

(** One pass of the [while] body. *)
Definition scroll_once (counts : nat → nat) (sc : scroller) (w : world)
    : scroller * world :=
  let w := emit (Sleep 2) (emit ScrollToBottom w) in
  let current_video_count := counts (attempts_made sc) in
  let w := emit CountRows w in
  if (last_video_count sc <? current_video_count)%nat then
    (Scroller current_video_count 0 (S (attempts_made sc)),
     say (LoadedSoFar current_video_count) w)
  else
    let stalls := S (consecutive_same_count sc) in
    (Scroller (last_video_count sc) stalls (S (attempts_made sc)),
     say (NoNewVideos (Z.of_nat max_attempts - Z.of_nat stalls)) w).

(** [while consecutive_same_count < max_attempts]; [None] when the fuel
    runs out before the loop ends. *)
Fixpoint scroll_loop (fuel : nat) (counts : nat → nat) (sc : scroller) (w : world)
    : option (scroller * world) :=
  if (consecutive_same_count sc <? max_attempts)%nat then
    match fuel with
    | O => None
    | S fuel =>
        let '(sc, w) := scroll_once counts sc w in
        scroll_loop fuel counts sc w
    end
  else Some (sc, w).

Definition scroll_to_end (fuel : nat) (counts : nat → nat) (w : world)
    : option (scroller * world) :=
  match scroll_loop fuel counts (Scroller 0 0 0) (say Scrolling w) with
  | Some (sc, w) => Some (sc, say (FinishedScrolling (last_video_count sc)) w)
  | None => None
  end.

(** [src and not src.startswith("data:")]. *)
Definition populated (src : option string) : bool :=
  match src with
  | Some s => truthy src && negb (startswith s "data:")
  | None => false
  end.

(** [not src or src.startswith("data:")]. *)
Definition still_placeholder (src : option string) : bool :=
  match src with
  | Some s => negb (truthy src) || startswith s "data:"
  | None => true
  end.

(** [for attempt in range(...)]: read, leave on a populated value,
    otherwise sleep; [src] is the value of the last read. *)
Fixpoint wait_for_src (img_element : element) (attempts : list nat)
    (src : option string) (w : world) : option string * world :=
  match attempts with
  | [] => (src, w)
  | attempt :: later =>
      let src := img_element attempt in
      let w := emit (GetAttribute "src") w in
      if populated src then (src, w)
      else wait_for_src img_element later src (emit (Sleep wait_step) w)
  end.

(** [f"{i+1}_thumbnail.jpg"]. *)
Definition thumbnail_filename (i : nat) : string :=
  pretty (i + 1)%nat +:+ "_thumbnail.jpg".

(** Where [download_file] puts the thumbnail of element [i]. *)
Definition thumbnail_path (i : nat) : string :=
  path_join OUTPUT_DIR (thumbnail_filename i).

(** The body of [for i, img_element in enumerate(images)]. *)
Definition visit (i : nat) (img_element : element) (downloaded_count : nat)
    (w : world) : nat * world :=
  let '(src, w) :=
    wait_for_src img_element
      (seq 0 (Z.to_nat (max_wait_time `quot` wait_step))) None w in
  if still_placeholder src then
    (downloaded_count, say (SkippingVideo (i + 1) max_wait_time) w)
  else
    let cleaned_src := first_part (split "?"%char (default "" src)) in
    let filename := thumbnail_filename i in
    let '(local_path, w) := download_file (Some cleaned_src) (Some filename) w in
    if truthy local_path then
      (S downloaded_count, crop_to_16_9 (default "" local_path) w)
    else (downloaded_count, w).

Fixpoint thumbnail_loop (i : nat) (images : list element) (downloaded_count : nat)
    (w : world) : nat * world :=
  match images with
  | [] => (downloaded_count, w)
  | img_element :: later =>
      let '(downloaded_count, w) := visit i img_element downloaded_count w in
      thumbnail_loop (S i) later downloaded_count w
  end.

(** [scrape_thumbnails], after the output directory exists. *)
Definition scrape_thumbnails (fuel : nat) (pg : page) (w : world) : option world :=
  let w := say (Navigating PLAYLIST_URL) w in
  match scroll_to_end fuel (row_counts pg) w with
  | None => None
  | Some (_, w) =>
      let images := thumbnails pg in
      match images with
      | [] => Some (say NoImagesFound w)
      | _ =>
          let w := say (FoundElements (length images)) w in
          let '(downloaded_count, w) := thumbnail_loop 0 images 0 w in
          Some (say (ScrapingComplete downloaded_count OUTPUT_DIR) w)
      end
  end.
End scraping_covers.

(** ** More vocabulary for the properties *)

(** The counts of the "Skipping malformed line" diagnostics of a console. *)
Definition skip_counts (console : list notice) : list nat :=
  omap (λ n, match n with SkippingMalformed count => Some count | _ => None end) console.

(** The URLs requested in some events. *)
Definition requests_made (events : list event) : list string :=
  omap (λ e, match e with Get url => Some url | _ => None end) events.

(** The lines printed in some events. *)
Definition printed_lines (events : list event) : list message :=
  omap (λ e, match e with Print m => Some m | _ => None end) events.

(** The world when the polling loop has found its URL at attempt [k]. *)
Definition found_at (k : nat) (w : world) : world :=
  World (disk w) (trace w ++ idle_polls k ++ [GetAttribute "src"]).

(** The first populated read of an element comes at attempt [k], within the
    budget of attempts, and is [s]. *)
Definition first_src (img_element : element) (k : nat) (s : string) : Prop :=
  (k < 5)%nat ∧ img_element k = Some s ∧ populated (Some s) = true ∧
  ∀ j, (j < k)%nat → populated (img_element j) = false.

(** ** Sample collaborators

    Concrete stand-ins for the JSON parser, the image codec and the HTTP
    transport, on which the properties below are exercised. *)

(** A parser that accepts the lines that start an object. *)
Definition sample_loads (line : string) : bool := startswith line "{".

(** 600 lines, the 37th and the 200th malformed. *)
Definition sample_stream : list string :=
  (λ i : nat, if bool_decide (i = 36 ∨ i = 199) then "oops" else "{}") <$> seq 0 600.

(** A codec that keeps the size of an image and nothing else: [width] zero
    bytes, a one byte, then a zero byte per row. *)
Definition header_save (img : image) : list Byte.byte :=
  replicate (Z.to_nat (img_width img)) Byte.x00 ++
  Byte.x01 :: replicate (length (img_rows img)) Byte.x00.

Fixpoint header_scan (content : list Byte.byte) (width : nat) : option image :=
  match content with
  | [] => None
  | Byte.x00 :: rest => header_scan rest (S width)
  | _ :: rest =>
      Some (Image (Z.of_nat width) (replicate (length rest) (replicate width blank)))
  end.

Definition header_open (content : list Byte.byte) : option image :=
  header_scan content 0.

(** A 16x12 image of blank pixels, and a world with it in one file. *)
Definition sample_image : image := Image 16 (replicate 12 (replicate 16 blank)).
Definition sample_world : world :=
  World {["youtube_thumbnails/1_thumbnail.jpg" := header_save sample_image]} [].


(** A server with one image, one missing page, and nothing else. *)
Definition sample_get (url : string) : reply :=
  if bool_decide (url = "https://i.ytimg.com/vi/abc/hqdefault.jpg") then
    Response 200 [header_save sample_image] true
  else if bool_decide (url = "https://i.ytimg.com/vi/gone/hqdefault.jpg") then
    Response 404 [] true
  else NoResponse.

(** An element whose [src] is a placeholder at first and a URL from the
    third read on, and one that never gets past the placeholder. *)
Definition lazy_element : element :=
  λ k, if (k <? 2)%nat then Some "data:image/gif;base64,R0lGOD"
       else Some "https://i.ytimg.com/vi/abc/hqdefault.jpg?sqp=-oaymwE&rs=AOn4CLB".
Definition stuck_element : element := λ _, Some "data:image/gif;base64,R0lGOD".

(** A page that shows 30 rows, then 55, then 55 for good. *)
Definition sample_counts : nat → nat :=
  λ k, match k with O => 30%nat | _ => 55%nat end.

(** A server whose image breaks off after two bytes, and which serves an
    empty body, no image, at another address. *)
Definition poor_get (url : string) : reply :=
  if bool_decide (url = "https://i.ytimg.com/vi/abc/hqdefault.jpg") then
    Response 200 [[Byte.x00; Byte.x00]] false
  else if bool_decide (url = "https://i.ytimg.com/vi/txt/hqdefault.jpg") then
    Response 200 [] true
  else NoResponse.

(** An element whose [src] is only a query, and one whose [src] is there at
    the first read. *)
Definition query_element : element := λ _, Some "?list=PL3-sRm8xAzY9".
Definition plain_element : element :=
  λ _, Some "https://i.ytimg.com/vi/txt/hqdefault.jpg".

Definition sample_page : page := Page sample_counts [lazy_element; stuck_element].

(** * Part II. Properties *)

Section download_data_facts.
Variable json_loads : string → bool.

Lemma line_loop_outfile limit text_stream failure st :
  lines_saved st = length (outfile st) →
  let st' := fst (line_loop json_loads limit text_stream failure st) in
  outfile st' =
    outfile st ++
    take (limit - lines_saved st)%nat (filter (λ l, json_loads l = true) text_stream)
  ∧ lines_saved st' = length (outfile st').
Proof.
  revert st. induction text_stream as [|line rest IH]; intros st Hst; simpl.
  - rewrite filter_nil, take_nil, app_nil_r. done.
  - destruct (Nat.leb_spec limit (lines_saved st)) as [Hfull|Hroom].
    + replace (limit - lines_saved st)%nat with 0%nat by lia.
      rewrite take_0, app_nil_r. done.
    + destruct (json_loads line) eqn:Hline.
      * rewrite filter_cons_True by done.
        destruct (IH (Saver (outfile st ++ [line]) (S (lines_saved st)) (printed st)))
          as [Hout Hcnt].
        { simpl. rewrite length_app. simpl. lia. }
        split; [|done]. rewrite Hout. simpl.
        replace (limit - lines_saved st)%nat
          with (S (limit - S (lines_saved st)))%nat by lia.
        simpl. by rewrite <- app_assoc.
      * rewrite filter_cons_False by (rewrite Hline; done).
        apply (IH (Saver (outfile st) (lines_saved st) _)). done.
Qed.





End download_data_facts.

Section image_facts.
Local Open Scope Z_scope.


Lemma crop_size img x0 upper x1 lower :
  x0 ≤ x1 → upper ≤ lower →
  ∃ cropped, crop img (x0, upper, x1, lower) = Some cropped ∧
    size cropped = (x1 - x0, lower - upper) ∧ well_formed cropped.
Proof.
  intros Hx Hy. unfold crop. rewrite decide_False by lia.
  eexists. split; [done|]. split.
  - unfold size, img_height. simpl. rewrite length_fmap, length_seqZ.
    f_equal. lia.
  - split; simpl; [lia|]. apply Forall_fmap, Forall_forall. intros y _. simpl.
    rewrite length_fmap, length_seqZ. lia.
Qed.

End image_facts.

Section crop_to_16_9_facts.
Local Open Scope Z_scope.
Variable Image_open : list Byte.byte → option image.
Variable Image_save : image → list Byte.byte.

(** Saving and opening again may change the pixels (JPEG), not the size. *)
Hypothesis reopen_size : ∀ img, well_formed img →
  ∃ img', Image_open (Image_save img) = Some img' ∧ size img' = size img.

Local Arguments crop : simpl never.
Local Abbreviation crop_file := (crop_to_16_9 Image_open Image_save).


(** The three ways a call can end. *)
Lemma crop_to_16_9_cases file_path w :
  (crop_file file_path w = say (ErrorProcessing file_path) w ∧
   (disk w !! file_path ≫= Image_open = None ∨
    ∃ img, disk w !! file_path ≫= Image_open = Some img ∧ img_width img < 0)) ∨
  ∃ img,
    disk w !! file_path ≫= Image_open = Some img ∧
    let target := (img_width img * 9) `quot` 16 in
    (img_height img ≤ target ∧ crop_file file_path w = say SkippingCrop w) ∨
    (img_height img > target ∧ 0 ≤ img_width img ∧
     ∃ cropped, well_formed cropped ∧ size cropped = (img_width img, target) ∧
       crop_file file_path w =
         say (Cropped (img_width img) target)
           (write_file file_path (Image_save cropped) w)).
Proof.
  unfold crop_to_16_9.
  destruct (disk w !! file_path ≫= Image_open) as [img|] eqn:Hopen;
    [|left; by split; [|left]].
  unfold size. cbv beta iota zeta.
  set (target := (img_width img * 9) `quot` 16).
  destruct (decide (img_height img > target)) as [Htall|Hfit].
  - destruct (decide (0 ≤ img_width img)) as [Hw|Hw].
    + right. exists img. split; [done|]. right. split_and!; [done..|].
      assert (0 ≤ target) by (apply Z.quot_pos; lia).
      set (top := (img_height img - target) `div` 2).
      assert (0 ≤ top) by (apply Z.div_pos; lia).
      destruct (crop_size img 0 top (img_width img)
        (img_height img - (img_height img - target - top)))
        as (cropped & -> & Hsize & Hwf); [lia..|].
      exists cropped. split_and!; [done| |done].
      unfold size in Hsize. rewrite Hsize. subst top. f_equal; lia.
    + left. unfold crop. rewrite decide_True by lia.
      split; [done|]. right. exists img. split; [done|lia].
  - right. exists img. split; [done|]. left. split; [lia|done].
Qed.

Lemma since_app w w' events : trace w' = trace w ++ events → since w w' = events.
Proof. intros Htrace. unfold since. by rewrite Htrace, drop_app_length. Qed.



End crop_to_16_9_facts.

Section download_file_facts.
Local Open Scope Z_scope.
Variable requests_get : string → reply.

Local Abbreviation download := (download_file requests_get).


(** C10: with no URL, [None] or the empty string, the call prints the
    error and returns [None]: the only event is that line, so no request
    is made, and the disk is the one before the call. *)
Theorem download_file_empty_url (local_filename : option string) w :
  download None local_filename w = (None, say EmptyURL w) ∧
  download (Some "") local_filename w = (None, say EmptyURL w) ∧
  disk (say EmptyURL w) = disk w ∧
  since w (say EmptyURL w) = [Print EmptyURL] ∧
  (∀ url, Get url ∉ since w (say EmptyURL w)) ∧
  (∀ path, Wrote path ∉ since w (say EmptyURL w)).
Proof.
  assert (Hsince : since w (say EmptyURL w) = [Print EmptyURL]) by by apply since_app.
  rewrite Hsince. split_and!; try done.
  - by intros url ?%list_elem_of_singleton.
  - by intros path ?%list_elem_of_singleton.
Qed.
End download_file_facts.

Section polling_facts.
Variable Image_open : list Byte.byte → option image.
Variable Image_save : image → list Byte.byte.
Variable requests_get : string → reply.

Lemma split_nonempty sep s : split sep s ≠ [].
Proof. destruct s as [|c s]; simpl; [done|]. by repeat case_match. Qed.

(** [s.split(sep)[0]] is [s] cut before its first [sep]. *)
Lemma first_part_split sep s :
  ∃ rest, s = first_part (split sep s) +:+ rest ∧
    occurs sep (first_part (split sep s)) = false ∧
    (rest = "" ∨ ∃ tail, rest = String sep tail).
Proof.
  induction s as [|c s (rest & Hs & Hfree & Hrest)]; simpl.
  - exists "". by split_and!; [..|left].
  - destruct (Ascii.eqb_spec c sep) as [->|Hc].
    + exists (String sep s). split_and!; [done..|]. right. by exists s.
    + pose proof (split_nonempty sep s).
      destruct (split sep s) as [|piece pieces]; [done|].
      exists rest. unfold first_part in *. simpl in *. split_and!; [|  |done].
      * by rewrite Hs at 1.
      * rewrite Hfree. by destruct (Ascii.eqb_spec c sep).
Qed.

Lemma reads_idle_polls n : reads (idle_polls n) = n.
Proof.
  unfold reads, idle_polls. induction n as [|n IH]; [done|].
  simpl. rewrite filter_cons_False by (simpl; tauto). by f_equal.
Qed.

Lemma slept_idle_polls n : slept (idle_polls n) = Z.of_nat n.
Proof.
  unfold slept, idle_polls. induction n as [|n IH]; [done|].
  simpl in *. rewrite IH. lia.
Qed.

Lemma reads_one name : reads [GetAttribute name] = 1.
Proof. reflexivity. Qed.

Lemma reads_app events1 events2 : reads (events1 ++ events2) = (reads events1 + reads events2)%nat.
Proof. unfold reads. by rewrite filter_app, length_app. Qed.

Lemma slept_app events1 events2 : slept (events1 ++ events2) = (slept events1 + slept events2)%Z.
Proof.
  unfold slept. induction events1 as [|e events1 IH]; simpl; [done|].
  rewrite IH. destruct e; lia.
Qed.

(** The polling loop over the attempts [from, from + n). *)
Lemma wait_for_src_spec img_element n from src w :
  let r := wait_for_src img_element (seq from n) src w in
  disk (snd r) = disk w ∧
  ((∃ k, (k < n)%nat ∧
      (∀ j, (j < k)%nat → populated (img_element (from + j)%nat) = false) ∧
      populated (img_element (from + k)%nat) = true ∧
      fst r = img_element (from + k)%nat ∧
      trace (snd r) = trace w ++ idle_polls k ++ [GetAttribute "src"]) ∨
   ((∀ j, (j < n)%nat → populated (img_element (from + j)%nat) = false) ∧
    populated (fst r) = populated src && bool_decide (n = 0%nat) ∧
    trace (snd r) = trace w ++ idle_polls n)).
Proof.
  revert from src w. induction n as [|n IH]; intros from src w; simpl.
  - split; [done|]. right. split_and!; [lia| |by rewrite app_nil_r].
    by rewrite andb_true_r.
  - destruct (populated (img_element from)) eqn:Hfrom; simpl.
    + split; [done|]. left. exists 0%nat. rewrite Nat.add_0_r.
      split_and!; [lia|lia|done..].
    + destruct (IH (S from) (img_element from)
        (emit (Sleep wait_step) (emit (GetAttribute "src") w))) as [Hdisk Hcases].
      split; [by rewrite Hdisk|].
      destruct Hcases as [(k & Hk & Hbefore & Hat & Hsrc & Htrace)|(Hnone & Hsrc & Htrace)].
      * left. exists (S k). rewrite <- Nat.add_succ_comm.
        split_and!; [lia| |done|done|].
        -- intros [|j] Hj; [by rewrite Nat.add_0_r|].
           rewrite <- Nat.add_succ_comm. apply Hbefore. lia.
        -- rewrite Htrace. simpl. by rewrite <- !app_assoc.
      * right. split_and!.
        -- intros [|j] Hj; [by rewrite Nat.add_0_r|].
           rewrite <- Nat.add_succ_comm. apply Hnone. lia.
        -- rewrite Hsrc, Hfrom. rewrite andb_false_r. done.
        -- rewrite Htrace. simpl. by rewrite <- !app_assoc.
Qed.

Local Abbreviation visit_element := (visit Image_open Image_save requests_get).
Local Abbreviation run_loop := (thumbnail_loop Image_open Image_save requests_get).

(** C6: for an element the loop reads [src] at most 5 times and sleeps
    1 second after each read that found nothing, 5 seconds at most. The
    element is accepted iff one of the first 5 reads is populated, that is
    not empty and not starting with "data:"; the URL then downloaded is
    the first populated read cut before its first '?'. If none of the 5
    reads is populated the element is skipped: after 5 reads and 5 seconds
    only the skip line is printed, nothing is downloaded, and the loop goes
    on with the next element. *)
Theorem thumbnail_polling (i : nat) (img_element : element) (later : list element)
    (downloaded_count : nat) (w : world) :
  let attempts := seq 0 (Z.to_nat (max_wait_time `quot` wait_step)) in
  let src := fst (wait_for_src img_element attempts None w) in
  let waited := snd (wait_for_src img_element attempts None w) in
  let events := since w waited in
  length attempts = 5 ∧
  reads events ≤ 5 ∧ (0 ≤ slept events ≤ 5)%Z ∧
  Forall (λ e, e = GetAttribute "src" ∨ e = Sleep 1) events ∧
  disk waited = disk w ∧
  (∀ s, populated (Some s) = true ↔ s ≠ "" ∧ startswith s "data:" = false) ∧
  populated None = false ∧
  (still_placeholder src = false ↔ ∃ k, k < 5 ∧ populated (img_element k) = true) ∧
  (∀ k, k < 5 → populated (img_element k) = true →
     (∀ j, j < k → populated (img_element j) = false) →
     ∃ s cleaned_src rest,
       img_element k = Some s ∧ src = Some s ∧
       events = idle_polls k ++ [GetAttribute "src"] ∧
       reads events = S k ∧ slept events = Z.of_nat k ∧
       s = cleaned_src +:+ rest ∧ occurs "?" cleaned_src = false ∧
       (rest = "" ∨ ∃ query, rest = String "?" query) ∧
       visit_element i img_element downloaded_count w =
         let '(local_path, w) :=
           download_file requests_get (Some cleaned_src)
             (Some (thumbnail_filename i)) waited in
         if truthy local_path then
           (S downloaded_count,
            crop_to_16_9 Image_open Image_save (default "" local_path) w)
         else (downloaded_count, w)) ∧
  ((∀ k, k < 5 → populated (img_element k) = false) →
     events = idle_polls 5 ∧ reads events = 5 ∧ slept events = 5%Z ∧
     visit_element i img_element downloaded_count w =
       (downloaded_count, say (SkippingVideo (i + 1) 5) waited)) ∧
  run_loop i (img_element :: later) downloaded_count w =
    run_loop (S i) later
      (fst (visit_element i img_element downloaded_count w))
      (snd (visit_element i img_element downloaded_count w)).
Proof.
  intros attempts src waited events. subst events.
  assert (Hbudget : attempts = seq 0 5) by done.
  assert (Hpop : ∀ s, populated (Some s) = true ↔ s ≠ "" ∧ startswith s "data:" = false).
  { intros [|c s]; simpl; [by split; [|intros []]|].
    rewrite negb_true_iff. by split; [|intros []]. }
  assert (Hstill : ∀ o, still_placeholder o = negb (populated o)).
  { intros [[|c s]|]; simpl; [done| |done]. by rewrite negb_involutive. }
  destruct (wait_for_src_spec img_element 5 0 None w) as [Hdisk Hcases].
  rewrite <- Hbudget in Hdisk, Hcases. fold src waited in Hdisk, Hcases.
  assert (Hvisit : visit_element i img_element downloaded_count w =
    if still_placeholder src then
      (downloaded_count, say (SkippingVideo (i + 1) max_wait_time) waited)
    else
      let '(local_path, w) :=
        download_file requests_get
          (Some (first_part (split "?"%char (default "" src))))
          (Some (thumbnail_filename i)) waited in
      if truthy local_path then
        (S downloaded_count,
         crop_to_16_9 Image_open Image_save (default "" local_path) w)
      else (downloaded_count, w)).
  { unfold visit. fold attempts. subst src waited.
    by destruct (wait_for_src img_element attempts None w). }
  assert (Hevents : ∃ k, k ≤ 5 ∧
    (since w waited = idle_polls k ++ [GetAttribute "src"] ∧ k < 5 ∨
     since w waited = idle_polls k)).
  { destruct Hcases as [(k & Hk & _ & _ & _ & Htrace)|(_ & _ & Htrace)].
    - exists k. split; [lia|]. left. split; [|done]. apply since_app, Htrace.
    - exists 5. split; [lia|]. right. apply since_app, Htrace. }
  split_and!; [reflexivity| | | | |exact Hdisk|exact Hpop|reflexivity| | | |].
  - destruct Hevents as (k & Hk & [[Hev Hk']|Hev]); rewrite Hev;
      rewrite ?reads_app, ?reads_one, reads_idle_polls; lia.
  - destruct Hevents as (k & Hk & [[Hev Hk']|Hev]); rewrite Hev;
      rewrite ?slept_app, slept_idle_polls; simpl; lia.
  - destruct Hevents as (k & Hk & [[Hev Hk']|Hev]); rewrite Hev;
      rewrite ?slept_app, slept_idle_polls; simpl; lia.
  - assert (Hidle : ∀ k, Forall (λ e, e = GetAttribute "src" ∨ e = Sleep 1) (idle_polls k)).
    { intros k. induction k as [|k IH]; [by constructor|].
      unfold idle_polls. simpl.
      apply Forall_cons; split; [by left|]. apply Forall_cons; split; [by right|].
      exact IH. }
    destruct Hevents as (k & Hk & [[Hev Hk']|Hev]); rewrite Hev; [|apply Hidle].
    apply Forall_app. split; [apply Hidle|]. apply Forall_singleton. by left.
  - rewrite Hstill, negb_false_iff.
    destruct Hcases as [(k & Hk & _ & Hat & Hsrc & _)|(Hnone & Hsrc & _)].
    + rewrite Hsrc. simpl in Hat. split; [|done]. intros _. by exists k.
    + rewrite Hsrc. simpl. split; [done|]. intros (k & Hk & Hat).
      specialize (Hnone k Hk). simpl in Hnone. congruence.
  - intros k Hk Hat Hbefore.
    destruct Hcases as [(k' & Hk' & Hbefore' & Hat' & Hsrc & Htrace)|(Hnone & _)];
      [|specialize (Hnone k Hk); simpl in Hnone; congruence].
    simpl in *.
    assert (k' = k) as ->.
    { destruct (Nat.lt_trichotomy k' k) as [Hlt|[?|Hlt]]; [|done|].
      - by rewrite (Hbefore k' Hlt) in Hat'.
      - by rewrite (Hbefore' k Hlt) in Hat. }
    destruct (img_element k) as [s|] eqn:Hs; [|done].
    destruct (first_part_split "?"%char s) as (rest & Hcut & Hfree & Hrest).
    exists s, (first_part (split "?"%char s)), rest.
    assert (since w waited = idle_polls k ++ [GetAttribute "src"]) as Hev by apply since_app, Htrace.
    split_and!; [done..| | | done | done | done |].
    + rewrite Hev, reads_app, reads_one, reads_idle_polls. lia.
    + rewrite Hev, slept_app, slept_idle_polls. simpl. lia.
    + rewrite Hvisit, Hstill, Hsrc, Hat. done.
  - intros Hnone.
    destruct Hcases as [(k' & Hk' & _ & Hat' & _)|(_ & Hsrc & Htrace)].
    { simpl in Hat'. by rewrite (Hnone k' Hk') in Hat'. }
    assert (since w waited = idle_polls 5) as Hev by apply since_app, Htrace.
    split_and!; [done| | |].
    + by rewrite Hev, reads_idle_polls.
    + by rewrite Hev, slept_idle_polls.
    + rewrite Hvisit, Hstill, Hsrc. done.
  - simpl. by destruct (visit_element i img_element downloaded_count w).
Qed.
End polling_facts.

Section filename_facts.
Variable Image_open : list Byte.byte → option image.
Variable Image_save : image → list Byte.byte.
Variable requests_get : string → reply.

Lemma length_app_string s1 s2 :
  String.length (s1 +:+ s2) = String.length s1 + String.length s2.
Proof.
  induction s1 as [|c s1 IH]; [done|].
  change (S (String.length (s1 +:+ s2)) = S (String.length s1) + String.length s2).
  by rewrite IH.
Qed.

Lemma app_string_inj_r suffix s1 s2 : s1 +:+ suffix = s2 +:+ suffix → s1 = s2.
Proof.
  revert s2. induction s1 as [|c1 s1 IH]; intros [|c2 s2] Heq.
  - done.
  - apply (f_equal String.length) in Heq.
    rewrite !length_app_string in Heq. simpl in Heq. lia.
  - apply (f_equal String.length) in Heq.
    rewrite !length_app_string in Heq. simpl in Heq. lia.
  - change (String c1 (s1 +:+ suffix) = String c2 (s2 +:+ suffix)) in Heq.
    injection Heq as -> Heq. f_equal. by apply IH.
Qed.

(** A number is printed without a leading slash. *)
Lemma pretty_N_go_no_slash (x : N) s :
  startswith s "/" = false → startswith (pretty_N_go x s) "/" = false.
Proof.
  revert s. induction (N.lt_wf_0 x) as [x _ IH]. intros s Hs.
  destruct (decide (x = 0)%N) as [->|Hx]; [done|].
  rewrite pretty_N_go_step by lia. apply IH; [apply N.div_lt; lia|].
  unfold pretty_N_char. by repeat case_match.
Qed.

Lemma thumbnail_filename_no_slash i : startswith (thumbnail_filename i) "/" = false.
Proof.
  unfold thumbnail_filename, pretty, pretty_nat, pretty, pretty_N.
  case_decide; [done|].
  assert (Hdigits : ∀ x s, pretty_N_go x s ≠ "" ∨ s = "").
  { intros x. induction (N.lt_wf_0 x) as [x _ IH]. intros s.
    destruct (decide (x = 0)%N) as [->|Hx].
    - destruct s; [by right|by left].
    - rewrite pretty_N_go_step by lia.
      destruct (IH (x `div` 10)%N ltac:(apply N.div_lt; lia)
        (String (pretty_N_char (x `mod` 10)) s)) as [?|?]; [by left|done]. }
  pose proof (pretty_N_go_no_slash (N.of_nat (i + 1)) "" eq_refl) as Hslash.
  destruct (pretty_N_go (N.of_nat (i + 1)) "") as [|c digits] eqn:Hgo.
  2: { change (String c digits +:+ "_thumbnail.jpg")
         with (String c (digits +:+ "_thumbnail.jpg")).
       simpl in *. done. }
  exfalso. assert (N.of_nat (i + 1) ≠ 0%N) as Hpos by lia.
  revert Hgo. rewrite pretty_N_go_step by lia.
  by destruct (Hdigits (N.of_nat (i + 1) `div` 10)%N
    (String (pretty_N_char (N.of_nat (i + 1) `mod` 10)) "")).
Qed.

Lemma thumbnail_path_eq i :
  thumbnail_path i = "youtube_thumbnails/" +:+ thumbnail_filename i.
Proof.
  unfold thumbnail_path, path_join. by rewrite thumbnail_filename_no_slash.
Qed.

Lemma thumbnail_filename_inj i j : thumbnail_filename i = thumbnail_filename j → i = j.
Proof.
  unfold thumbnail_filename. intros Heq%app_string_inj_r.
  apply (inj pretty) in Heq. lia.
Qed.

Lemma truthy_thumbnail_path i : truthy (Some (thumbnail_path i)) = true.
Proof. by rewrite thumbnail_path_eq. Qed.

Global Instance thumbnail_path_inj : Inj (=) (=) thumbnail_path.
Proof.
  intros i j. rewrite !thumbnail_path_eq. intros Heq%(inj (String.app _)).
  by apply thumbnail_filename_inj.
Qed.

Local Abbreviation visit_element := (visit Image_open Image_save requests_get).
Local Abbreviation run_loop := (thumbnail_loop Image_open Image_save requests_get).

(** What a call with a given file name writes and reports. *)
Lemma download_file_events url name w :
  let r := download_file requests_get url (Some name) w in
  ∃ events, trace (snd r) = trace w ++ events ∧
    Forall (λ p, p = path_join OUTPUT_DIR name) (written_paths events) ∧
    (fst r = None ∧ downloaded_paths events = [] ∨
     fst r = Some (path_join OUTPUT_DIR name) ∧
     downloaded_paths events = [path_join OUTPUT_DIR name]).
Proof.
  unfold download_file. destruct url as [[|c url]|].
  - exists [Print EmptyURL]. split_and!; [done|by constructor|by left].
  - destruct (requests_get _) as [|status_code chunks complete].
    + eexists [_; _]. simpl. rewrite <- !app_assoc.
      split_and!; [done|by constructor|by left].
    + case_decide.
      * eexists [_; _]. simpl. rewrite <- !app_assoc.
        split_and!; [done|by constructor|by left].
      * destruct complete.
        -- eexists [_; _; _]. simpl. rewrite <- !app_assoc.
           split_and!; [done|by repeat constructor|by right].
        -- eexists [_; _; _]. simpl. rewrite <- !app_assoc.
           split_and!; [done|by repeat constructor|by left].
  - exists [Print EmptyURL]. split_and!; [done|by constructor|by left].
Qed.

Lemma crop_to_16_9_events file_path w :
  ∃ events, trace (crop_to_16_9 Image_open Image_save file_path w) = trace w ++ events ∧
    Forall (λ p, p = file_path) (written_paths events) ∧
    downloaded_paths events = [].
Proof.
  unfold crop_to_16_9. destruct (_ ≫= _) as [img|].
  - unfold size. cbv beta iota zeta. case_decide.
    + destruct (crop _ _) as [cropped|].
      * eexists [_; _]. simpl. rewrite <- !app_assoc.
        split_and!; [done|by repeat constructor|done].
      * eexists [_]. split_and!; [done|by constructor|done].
    + eexists [_]. split_and!; [done|by constructor|done].
  - eexists [_]. split_and!; [done|by constructor|done].
Qed.

Lemma idle_polls_quiet n :
  written_paths (idle_polls n) = [] ∧ downloaded_paths (idle_polls n) = [].
Proof. induction n as [|n [IHw IHd]]; [done|]. by unfold idle_polls in *; simpl. Qed.

(** What the visit of element [i] writes and reports. *)
Lemma visit_events i img_element downloaded_count w :
  let r := visit_element i img_element downloaded_count w in
  ∃ events, trace (snd r) = trace w ++ events ∧
    Forall (λ p, p = thumbnail_path i) (written_paths events) ∧
    (downloaded_paths events = [] ∨ downloaded_paths events = [thumbnail_path i]) ∧
    fst r = downloaded_count + length (downloaded_paths events).
Proof.
  unfold visit.
  destruct (wait_for_src_spec img_element 5 0 None w) as [_ Hpoll].
  change (seq 0 (Z.to_nat (max_wait_time `quot` wait_step))) with (seq 0 5).
  destruct (wait_for_src img_element (seq 0 5) None w) as [src waited].
  simpl in Hpoll.
  assert (∃ polls, trace waited = trace w ++ polls ∧
    written_paths polls = [] ∧ downloaded_paths polls = []) as (polls & Hpolls & Hw & Hd).
  { destruct (idle_polls_quiet 5) as [??].
    destruct Hpoll as [(k & _ & _ & _ & _ & ->)|(_ & _ & ->)]; [|by eexists].
    destruct (idle_polls_quiet k) as [Hkw Hkd].
    eexists. split; [done|].
    unfold written_paths, downloaded_paths in *. by rewrite !omap_app, Hkw, Hkd. }
  destruct (still_placeholder src).
  - eexists (polls ++ [_]). simpl. rewrite Hpolls, <- app_assoc. split; [done|].
    unfold written_paths, downloaded_paths in *. rewrite !omap_app, Hw, Hd. simpl.
    split_and!; [by constructor|by left|lia].
  - destruct (download_file_events (Some (first_part (split "?"%char (default "" src))))
      (thumbnail_filename i) waited) as (events & Htrace & Hwritten & Hresult).
    destruct (download_file _ _ _ waited) as [local_path fetched]. simpl in *.
    destruct Hresult as [[-> Hnone]|[-> Hsome]]; simpl.
    + exists (polls ++ events). rewrite Htrace, Hpolls, <- app_assoc. split; [done|].
      unfold written_paths, downloaded_paths in *. rewrite !omap_app, Hw, Hd, Hnone.
      simpl. split_and!; [done|by left|lia].
    + fold (thumbnail_path i) in *.
      change (match thumbnail_path i with "" => false | String _ _ => true end)
        with (truthy (Some (thumbnail_path i))).
      rewrite truthy_thumbnail_path. simpl.
      destruct (crop_to_16_9_events (thumbnail_path i) fetched)
        as (crop_events & Hcrop & Hcw & Hcd).
      exists (polls ++ events ++ crop_events).
      rewrite Hcrop, Htrace, Hpolls, <- !app_assoc. split; [done|].
      unfold written_paths, downloaded_paths in *.
      rewrite !omap_app, Hw, Hd, Hsome, Hcd. simpl.
      split_and!; [by apply Forall_app|by right|lia].
Qed.

(** The events of a run of the loop, element by element. *)
Lemma thumbnail_loop_events i images downloaded_count w :
  let r := run_loop i images downloaded_count w in
  ∃ per_element : list (list event),
    length per_element = length images ∧
    trace (snd r) = trace w ++ mjoin per_element ∧
    fst r = downloaded_count + length (downloaded_paths (mjoin per_element)) ∧
    ∀ k events, per_element !! k = Some events →
      Forall (λ p, p = thumbnail_path (i + k)) (written_paths events) ∧
      (downloaded_paths events = [] ∨
       downloaded_paths events = [thumbnail_path (i + k)]).
Proof.
  revert i downloaded_count w.
  induction images as [|img_element later IH]; intros i downloaded_count w; simpl.
  - exists []. split_and!; [done|by rewrite app_nil_r|simpl; lia|done].
  - destruct (visit_events i img_element downloaded_count w)
      as (events & Htrace & Hwritten & Hdown & Hcount).
    destruct (visit_element i img_element downloaded_count w) as [count visited].
    simpl in *.
    destruct (IH (S i) count visited) as (rest & Hlen & Hrest & Hcounts & Hper).
    exists (events :: rest). simpl. split_and!.
    + by rewrite Hlen.
    + by rewrite Hrest, Htrace, <- app_assoc.
    + rewrite Hcounts, Hcount. unfold downloaded_paths.
      rewrite omap_app, length_app. lia.
    + intros [|k] events' Hk; simpl in Hk.
      * injection Hk as <-. by rewrite Nat.add_0_r.
      * rewrite <- Nat.add_succ_comm. by apply Hper.
Qed.

Lemma downloaded_paths_in_order (per_element : list (list event)) i :
  (∀ k events, per_element !! k = Some events →
     downloaded_paths events = [] ∨
     downloaded_paths events = [thumbnail_path (i + k)]) →
  downloaded_paths (mjoin per_element)
    `sublist_of` (thumbnail_path <$> seq i (length per_element)).
Proof.
  revert i. induction per_element as [|events rest IH]; intros i Hper; simpl.
  - constructor.
  - unfold downloaded_paths in *. rewrite omap_app.
    assert (Hrest : omap (λ e, match e with
                               | Print (Downloaded path) => Some path
                               | _ => None
                               end) (mjoin rest)
              `sublist_of` (thumbnail_path <$> seq (S i) (length rest))).
    { apply IH. intros k events' Hk. rewrite Nat.add_succ_comm.
      by apply (Hper (S k)). }
    destruct (Hper 0 events eq_refl) as [->| ->]; rewrite ?Nat.add_0_r; simpl.
    + by apply sublist_cons.
    + by apply sublist_skip.
Qed.

(** C9: the file of the element at position [i] (counted from 0) is
    named [<i+1>_thumbnail.jpg], in decimal, and goes to
    [youtube_thumbnails/<i+1>_thumbnail.jpg]; names and paths of distinct
    positions differ. In a run over [images], the events split element by
    element: the visit of element [i] writes to no other path than its
    own and reports at most that one download; so the downloaded paths
    come in the order of the elements, without repetition, and every
    path written belongs to one position. *)
Theorem thumbnail_filenames_unique images downloaded_count w :
  let r := run_loop 0 images downloaded_count w in
  let events := since w (snd r) in
  (∀ i, thumbnail_filename i = pretty (i + 1) +:+ "_thumbnail.jpg") ∧
  (∀ i, thumbnail_path i = "youtube_thumbnails/" +:+ thumbnail_filename i) ∧
  (∀ i j, thumbnail_filename i = thumbnail_filename j → i = j) ∧
  (∀ i j, thumbnail_path i = thumbnail_path j → i = j) ∧
  (∃ per_element : list (list event),
     length per_element = length images ∧ events = mjoin per_element ∧
     ∀ i visit_events, per_element !! i = Some visit_events →
       Forall (λ p, p = thumbnail_path i) (written_paths visit_events) ∧
       (downloaded_paths visit_events = [] ∨
        downloaded_paths visit_events = [thumbnail_path i])) ∧
  downloaded_paths events `sublist_of` (thumbnail_path <$> seq 0 (length images)) ∧
  NoDup (downloaded_paths events) ∧
  (∀ p, p ∈ written_paths events → ∃ i, i < length images ∧ p = thumbnail_path i) ∧
  fst r = downloaded_count + length (downloaded_paths events).
Proof.
  intros r events. subst r events.
  destruct (thumbnail_loop_events 0 images downloaded_count w)
    as (per_element & Hlen & Htrace & Hcount & Hper).
  apply since_app in Htrace. rewrite Htrace.
  assert (Hsub : downloaded_paths (mjoin per_element)
    `sublist_of` (thumbnail_path <$> seq 0 (length images))).
  { rewrite <- Hlen. apply downloaded_paths_in_order.
    intros k events Hk. by apply Hper. }
  split_and!; [done|apply thumbnail_path_eq|apply thumbnail_filename_inj|
               apply thumbnail_path_inj| |done| | |done].
  - exists per_element. split_and!; [done..|].
    intros i events Hi. by apply (Hper i).
  - eapply sublist_NoDup; [|exact Hsub].
    apply NoDup_fmap_2; [apply _|apply NoDup_seq].
  - intros p Hp. unfold written_paths in Hp.
    apply list_elem_of_omap in Hp as (e & He & Hpath).
    apply list_elem_of_join in He as (visit_events & He & Hin).
    apply list_elem_of_lookup in Hin as (i & Hi).
    exists i. split.
    + rewrite <- Hlen. by eapply lookup_lt_Some.
    + destruct (Hper i visit_events Hi) as [Hall _].
      rewrite Forall_forall in Hall. apply Hall.
      apply list_elem_of_omap. by exists e.
Qed.
End filename_facts.

Section scroll_to_end_facts.
Variable counts : nat → nat.

(** The scroller after [k] attempts. *)
Let after (k : nat) : scroller :=
  Scroller (remembered counts k) (stall_run counts k) k.

Lemma scroll_once_after k w : fst (scroll_once counts (after k) w) = after (S k).
Proof.
  unfold scroll_once, after, stalled. simpl.
  destruct (Nat.ltb_spec (remembered counts k) (counts k)) as [Hgrow|Hstall]; simpl.
  - unfold stalled. rewrite (proj2 (Nat.leb_gt _ _)) by done. f_equal. lia.
  - unfold stalled. rewrite (proj2 (Nat.leb_le _ _)) by done. f_equal. lia.
Qed.

Lemma scroll_loop_stops fuel k w sc w' :
  scroll_loop fuel counts (after k) w = Some (sc, w') →
  ∃ n, sc = after n ∧ k ≤ n ≤ k + fuel ∧ max_attempts ≤ stall_run counts n ∧
    ∀ j, k ≤ j < n → stall_run counts j < max_attempts.
Proof.
  revert k w. induction fuel as [|fuel IH]; intros k w; simpl;
    destruct (Nat.ltb_spec (stall_run counts k) max_attempts) as [Hgo|Hstop];
    try done.
  - intros [= <- <-]. exists k. split_and!; [done|lia..].
  - pose proof (scroll_once_after k w) as Hstep.
    destruct (scroll_once counts (after k) w) as [sc1 w1]. simpl in Hstep. subst sc1.
    intros (n & -> & Hn & Hfull & Hbefore)%IH.
    exists n. split_and!; [done|lia|lia|done|].
    intros j Hj. destruct (decide (j = k)) as [->|?]; [done|]. apply Hbefore. lia.
  - intros [= <- <-]. exists k. split_and!; [done|lia..].
Qed.

Lemma scroll_loop_returns fuel k w n :
  k ≤ n ≤ k + fuel → max_attempts ≤ stall_run counts n →
  is_Some (scroll_loop fuel counts (after k) w).
Proof.
  revert k w. induction fuel as [|fuel IH]; intros k w Hn Hfull; simpl;
    destruct (Nat.ltb_spec (stall_run counts k) max_attempts) as [Hgo|Hstop];
    try done.
  - assert (n = k) as -> by lia. lia.
  - pose proof (scroll_once_after k w) as Hstep.
    destruct (scroll_once counts (after k) w) as [sc1 w1]. simpl in Hstep. subst sc1.
    destruct (decide (n = k)) as [->|?]; [lia|]. apply IH; [lia|done].
Qed.

(** A stall counter of at least [c] means [c] attempts without growth in
    a row. *)
Lemma stall_run_window c n :
  c ≤ stall_run counts n ↔
  c ≤ n ∧ ∀ j, n - c ≤ j < n → stalled counts j = true.
Proof.
  revert c. induction n as [|n IH]; intros c; simpl.
  - split; [intros ?; split; [done|lia]|by intros [? _]].
  - destruct c as [|c]; [split; [intros _; split; [lia|lia]|lia]|].
    destruct (stalled counts n) eqn:Hn.
    + rewrite <- Nat.succ_le_mono, IH. split.
      * intros [Hc Hwin]. split; [lia|]. intros j Hj.
        destruct (decide (j = n)) as [->|?]; [done|]. apply Hwin. lia.
      * intros [Hc Hwin]. split; [lia|]. intros j Hj. apply Hwin. lia.
    + split; [lia|]. intros [Hc Hwin]. rewrite Hwin in Hn by lia. done.
Qed.

Lemma stall_run_step n : stall_run counts (S n) ≤ S (stall_run counts n).
Proof. simpl. destruct (stalled counts n); lia. Qed.

Lemma remembered_mono k n : k ≤ n → remembered counts k ≤ remembered counts n.
Proof. induction 1; simpl; lia. Qed.

(** C8: an attempt that counts more rows than remembered stores the new
    count and sets the stall counter to 0, any other attempt adds 1 to it.
    When the loop ends, after [n] attempts, the last 10 attempts brought no
    growth over the remembered maximum, the stall counter is exactly 10,
    and no earlier attempt closes 10 such attempts in a row. The loop ends
    as soon as such a run exists (within [m] attempts if the run ends at
    attempt [m]), hence for every sequence of counts that from some attempt
    on never increases. *)
Theorem scroll_to_end_stops (w : world) :
  (∀ sc w0,
     last_video_count sc < counts (attempts_made sc) →
     fst (scroll_once counts sc w0) =
       Scroller (counts (attempts_made sc)) 0 (S (attempts_made sc))) ∧
  (∀ sc w0,
     counts (attempts_made sc) ≤ last_video_count sc →
     fst (scroll_once counts sc w0) =
       Scroller (last_video_count sc) (S (consecutive_same_count sc))
         (S (attempts_made sc))) ∧
  (∀ fuel sc w',
     scroll_to_end fuel counts w = Some (sc, w') →
     let n := attempts_made sc in
     max_attempts = 10 ∧ 10 ≤ n ≤ fuel ∧
     (∀ j, n - 10 ≤ j < n → counts j ≤ remembered counts j) ∧
     (∀ m, 10 ≤ m → (∀ j, m - 10 ≤ j < m → counts j ≤ remembered counts j) → n ≤ m) ∧
     last_video_count sc = remembered counts n ∧
     consecutive_same_count sc = 10) ∧
  (∀ m, 10 ≤ m → (∀ j, m - 10 ≤ j < m → counts j ≤ remembered counts j) →
     ∃ sc w', scroll_to_end m counts w = Some (sc, w') ∧ attempts_made sc ≤ m) ∧
  ((∃ N, ∀ i, N ≤ i → counts (S i) ≤ counts i) →
     ∃ fuel sc w', scroll_to_end fuel counts w = Some (sc, w')).
Proof.
  assert (Hwindow : ∀ m, 10 ≤ stall_run counts m ↔
    10 ≤ m ∧ ∀ j, m - 10 ≤ j < m → counts j ≤ remembered counts j).
  { intros m. rewrite stall_run_window. unfold stalled.
    by setoid_rewrite Nat.leb_le. }
  assert (Hstops : ∀ fuel sc w', scroll_to_end fuel counts w = Some (sc, w') →
    ∃ n, sc = after n ∧ n ≤ fuel ∧ 10 ≤ stall_run counts n ∧
      ∀ j, j < n → stall_run counts j < 10).
  { intros fuel sc w'. unfold scroll_to_end.
    destruct (scroll_loop fuel counts (Scroller 0 0 0) (say Scrolling w))
      as [[sc1 w1]|] eqn:Hloop; [|done].
    intros [= <- <-].
    apply (scroll_loop_stops fuel 0) in Hloop as (n & -> & Hn & Hfull & Hbefore).
    exists n. split_and!; [done|lia|done|]. intros j Hj. apply Hbefore. lia. }
  assert (Hreturns : ∀ m, 10 ≤ m →
    (∀ j, m - 10 ≤ j < m → counts j ≤ remembered counts j) →
    ∃ sc w', scroll_to_end m counts w = Some (sc, w') ∧ attempts_made sc ≤ m).
  { intros m Hm Hwin.
    destruct (scroll_loop_returns m 0 (say Scrolling w) m) as [[sc w'] Hloop];
      [lia|by apply Hwindow|].
    exists sc, (say (FinishedScrolling (last_video_count sc)) w').
    unfold scroll_to_end. change (Scroller 0 0 0) with (after 0). rewrite Hloop.
    split; [done|].
    apply scroll_loop_stops in Hloop as (n & -> & Hn & _). simpl. lia. }
  split_and!.
  - intros sc w0 Hgrow. unfold scroll_once.
    by rewrite (proj2 (Nat.ltb_lt _ _)).
  - intros sc w0 Hstall. unfold scroll_once.
    by rewrite (proj2 (Nat.ltb_ge _ _)).
  - intros fuel sc w' (n & -> & Hn & Hfull & Hbefore)%Hstops. simpl.
    pose proof (proj1 (Hwindow n) Hfull) as [Hten Hrun].
    split_and!; [done|lia|lia|done| |done|].
    + intros m Hm Hwin. destruct (decide (n ≤ m)) as [|Hlate]; [done|].
      pose proof (proj2 (Hwindow m) (conj Hm Hwin)).
      specialize (Hbefore m ltac:(lia)). lia.
    + destruct n as [|n]; [simpl in Hfull; lia|].
      pose proof (stall_run_step n). specialize (Hbefore n ltac:(lia)). lia.
  - exact Hreturns.
  - intros [N Hflat].
    assert (Hbelow : ∀ i, N ≤ i → counts i ≤ counts N).
    { induction 1 as [|i Hi IH]; [done|]. etrans; [by apply Hflat|done]. }
    destruct (Hreturns (N + 11)) as (sc & w' & Hrun & _); [lia| |by eauto].
    intros j Hj. etrans; [apply Hbelow; lia|].
    etrans; [|apply (remembered_mono (S N)); lia]. simpl. lia.
Qed.
End scroll_to_end_facts.

(** * Part III. The properties on the sample collaborators *)

Section samples.
Local Open Scope Z_scope.





Example split_query :
  first_part (split "?"%char "https://i.ytimg.com/vi/abc/hqdefault.jpg?sqp=-oaymwE&rs=AOn4CLB")
    = "https://i.ytimg.com/vi/abc/hqdefault.jpg".
Proof. reflexivity. Qed.

Example default_filename :
  last_part (split "/"%char "https://i.ytimg.com/vi/abc/hqdefault.jpg") = "hqdefault.jpg".
Proof. reflexivity. Qed.

Example crop_middle_row :
  crop (Image 3 [[1; 2; 3]; [4; 5; 6]; [7; 8; 9]]) (0, 1, 3, 2) = Some (Image 3 [[4; 5; 6]]).
Proof. reflexivity. Qed.

Example lazy_element_visit :
  let r := visit header_open header_save sample_get 0 lazy_element 0 (World ∅ []) in
  fst r = 1%nat ∧
  trace (snd r) =
    [GetAttribute "src"; Sleep 1; GetAttribute "src"; Sleep 1; GetAttribute "src";
     Get "https://i.ytimg.com/vi/abc/hqdefault.jpg";
     Wrote "youtube_thumbnails/1_thumbnail.jpg";
     Print (Downloaded "youtube_thumbnails/1_thumbnail.jpg");
     Wrote "youtube_thumbnails/1_thumbnail.jpg";
     Print (Cropped 16 9)].
Proof. by vm_compute. Qed.

Example sample_scroll :
  fst <$> scroll_to_end 12 sample_counts (World ∅ []) = Some (Scroller 55 10 12) ∧
  scroll_to_end 11 sample_counts (World ∅ []) = None.
Proof. by vm_compute. Qed.

Example broken_stream :
  download_data sample_loads (Stream ["{}"; "oops"; "{}"] (Some "reset")) =
    (Some ["{}"; "{}"],
     [Starting DATA_URL; SkippingMalformed 1; UnexpectedError "reset"]).
Proof. reflexivity. Qed.






Lemma thumbnail_polling_witness :
  populated (lazy_element 2%nat) = true ∧
  reads (since (World ∅ [])
           (snd (wait_for_src lazy_element (seq 0 5) None (World ∅ [])))) = 3%nat ∧
  visit header_open header_save sample_get 4%nat stuck_element 0%nat (World ∅ []) =
    (0%nat, say (SkippingVideo 5%nat 5)
              (snd (wait_for_src stuck_element (seq 0 5) None (World ∅ [])))).
Proof.
  split; [reflexivity|]. split.
  - destruct (thumbnail_polling header_open header_save sample_get
                0%nat lazy_element [] 0%nat (World ∅ []))
      as (_ & _ & _ & _ & _ & _ & _ & _ & Haccept & _).
    destruct (Haccept 2%nat) as (s & cleaned & rest & _ & _ & _ & Hreads & _).
    + lia.
    + reflexivity.
    + intros [|[|j]] Hj; [reflexivity|reflexivity|lia].
    + exact Hreads.
  - destruct (thumbnail_polling header_open header_save sample_get
                4%nat stuck_element [] 0%nat (World ∅ []))
      as (_ & _ & _ & _ & _ & _ & _ & _ & _ & Hskip & _).
    destruct Hskip as (_ & _ & _ & Hvisit); [|exact Hvisit].
    intros k _. reflexivity.
Defined.

Lemma scroll_to_end_stops_witness :
  (∀ i, (1 ≤ i)%nat → (sample_counts (S i) ≤ sample_counts i)%nat) ∧
  ∃ fuel sc w', scroll_to_end fuel sample_counts (World ∅ []) = Some (sc, w').
Proof.
  assert (Hflat : ∀ i, (1 ≤ i)%nat → (sample_counts (S i) ≤ sample_counts i)%nat).
  { intros [|i] Hi; [lia|]. simpl. lia. }
  split; [exact Hflat|].
  destruct (scroll_to_end_stops sample_counts (World ∅ [])) as (_ & _ & _ & _ & Hend).
  apply Hend. exists 1%nat. exact Hflat.
Defined.

Lemma thumbnail_filenames_unique_witness :
  NoDup (downloaded_paths
    (since (World ∅ [])
       (snd (thumbnail_loop header_open header_save sample_get 0%nat
               [lazy_element; stuck_element; lazy_element] 0%nat (World ∅ []))))) ∧
  thumbnail_filename 2%nat = "3_thumbnail.jpg".
Proof.
  split; [|reflexivity].
  destruct (thumbnail_filenames_unique header_open header_save sample_get
              [lazy_element; stuck_element; lazy_element] 0%nat (World ∅ []))
    as (_ & _ & _ & _ & _ & _ & Hnodup & _).
  exact Hnodup.
Defined.
End samples.

(** * Part IV. Further properties of the two scripts *)

Section line_loop_more.
Variable json_loads : string → bool.

Local Abbreviation valid := (λ line : string, json_loads line = true).

(** No line is read at the limit while the valid lines stay below it. *)
Lemma line_loop_app limit before rest failure st :
  lines_saved st + length (filter valid before) < limit →
  line_loop json_loads limit (before ++ rest) failure st =
    line_loop json_loads limit rest failure
      (fst (line_loop json_loads limit before None st)).
Proof.
  revert st. induction before as [|line before IH]; intros st Hroom; simpl; [done|].
  rewrite filter_cons in Hroom.
  destruct (Nat.leb_spec limit (lines_saved st)) as [Hfull|_]; [lia|].
  destruct (json_loads line) eqn:Hline.
  - rewrite decide_True in Hroom by done. apply IH. simpl in *. lia.
  - rewrite decide_False in Hroom by (rewrite ?Hline; done). by apply IH.
Qed.

(** The diagnostics the loop prints, by their counts. *)
Lemma line_loop_printed limit text_stream failure st :
  ∃ counts,
    printed (fst (line_loop json_loads limit text_stream failure st)) =
      printed st ++ (SkippingMalformed <$> counts) ∧
    Forall (λ c, lines_saved st ≤ c < limit) counts ∧
    StronglySorted le counts ∧
    length counts ≤ length (filter (λ line, ¬ valid line) text_stream) ∧
    (lines_saved st + length (filter valid text_stream) < limit →
     length counts = length (filter (λ line, ¬ valid line) text_stream)).
Proof.
  revert st. induction text_stream as [|line rest IH]; intros st; simpl.
  - exists []. rewrite app_nil_r. split_and!; [done|constructor|constructor|done|done].
  - rewrite !filter_cons.
    destruct (Nat.leb_spec limit (lines_saved st)) as [Hfull|Hroom]; simpl.
    { exists []. rewrite app_nil_r.
      split_and!; [done|constructor|constructor|simpl; lia|lia]. }
    destruct (json_loads line) eqn:Hline.
    + rewrite (decide_True (P := true = true)) by done.
      rewrite (decide_False (P := ¬ true = true)) by tauto.
      destruct (IH (Saver (outfile st ++ [line]) (S (lines_saved st)) (printed st)))
        as (counts & Hprinted & Hbounds & Hsorted & Hle & Hall).
      exists counts. simpl in *. split_and!; [done| |done|done|].
      * eapply Forall_impl; [exact Hbounds|]. simpl. lia.
      * intros Hlow. apply Hall. lia.
    + rewrite (decide_False (P := false = true)) by done.
      rewrite (decide_True (P := ¬ false = true)) by done.
      destruct (IH (Saver (outfile st) (lines_saved st)
                      (printed st ++ [SkippingMalformed (lines_saved st)])))
        as (counts & Hprinted & Hbounds & Hsorted & Hle & Hall).
      exists (lines_saved st :: counts). simpl in *.
      split_and!.
      * by rewrite Hprinted, <- app_assoc.
      * constructor; [lia|done].
      * constructor; [done|]. eapply Forall_impl; [exact Hbounds|]. simpl. lia.
      * lia.
      * intros Hlow. rewrite Hall by done. done.
Qed.



Lemma skip_counts_fmap counts : skip_counts (SkippingMalformed <$> counts) = counts.
Proof.
  unfold skip_counts. induction counts as [|c counts IH]; [done|].
  simpl. by f_equal.
Qed.

(** The console of a run over a stream: the start line, the diagnostics,
    then the report. *)
Lemma download_data_console text_stream failure :
  ∃ counts,
    snd (download_data json_loads (Stream text_stream failure)) =
      Starting DATA_URL :: (SkippingMalformed <$> counts) ++
        match snd (line_loop json_loads MAX_LINES_TO_SAVE text_stream failure
                     (Saver [] 0 [])) with
        | None =>
            [Success (length (saved_lines json_loads (Stream text_stream failure)))
               OUTPUT_FILENAME;
             OpenInVSCode OUTPUT_FILENAME]
        | Some e => [UnexpectedError e]
        end ∧
    skip_counts (snd (download_data json_loads (Stream text_stream failure))) = counts ∧
    Forall (λ c, c < MAX_LINES_TO_SAVE) counts ∧
    StronglySorted le counts ∧
    length counts ≤ length (filter (λ line, ¬ valid line) text_stream) ∧
    (length (filter valid text_stream) < MAX_LINES_TO_SAVE →
     length counts = length (filter (λ line, ¬ valid line) text_stream)).
Proof.
  destruct (line_loop_printed MAX_LINES_TO_SAVE text_stream failure (Saver [] 0 []))
    as (counts & Hprinted & Hbounds & Hsorted & Hle & Hall).
  destruct (line_loop_outfile json_loads MAX_LINES_TO_SAVE text_stream failure
              (Saver [] 0 [])) as [_ Hsaved]; [done|].
  exists counts.
  assert (Hconsole : snd (download_data json_loads (Stream text_stream failure)) =
    Starting DATA_URL :: (SkippingMalformed <$> counts) ++
      match snd (line_loop json_loads MAX_LINES_TO_SAVE text_stream failure
                   (Saver [] 0 [])) with
      | None =>
          [Success (length (saved_lines json_loads (Stream text_stream failure)))
             OUTPUT_FILENAME;
           OpenInVSCode OUTPUT_FILENAME]
      | Some e => [UnexpectedError e]
      end).
  { unfold saved_lines. simpl. rewrite Hprinted. simpl in *. by rewrite Hsaved. }
  split_and!; [done| |by eapply Forall_impl; [exact Hbounds|]; simpl; lia|done|done|].
  - rewrite Hconsole. unfold skip_counts. simpl. rewrite omap_app.
    fold (skip_counts (SkippingMalformed <$> counts)). rewrite skip_counts_fmap.
    destruct (snd (line_loop _ _ _ _ _)); apply app_nil_r.
  - intros Hfew. apply Hall. simpl. lia.
Qed.
End line_loop_more.

Section download_data_more.
Variable json_loads : string → bool.

Local Abbreviation valid := (λ line : string, json_loads line = true).


(** X2: the diagnostics of a run never report a count of 500 or more, their
    counts never decrease, and there are at most as many of them as there
    are malformed lines in the stream. *)
Theorem skip_counts_bounded_sorted (text_stream : list string)
    (failure : option string) :
  let counts :=
    skip_counts (snd (download_data json_loads (Stream text_stream failure))) in
  Forall (λ c, c < 500) counts ∧
  StronglySorted le counts ∧
  length counts ≤ length (filter (λ line, ¬ valid line) text_stream).
Proof.
  intros counts. subst counts.
  by destruct (download_data_console json_loads text_stream failure)
    as (counts & _ & -> & ? & ? & ? & _).
Qed.


(** X4: what follows the line after the 500th valid line has no influence:
    once 500 lines are saved the loop leaves at the next line, whatever it
    is, so the file is the 500 valid lines, the run reports success, and
    neither later lines nor a later failure of the stream change the run. *)
Theorem lines_after_limit_ignored (before : list string) (line : string)
    (next1 next2 : string) (after1 after2 : list string) (failure1 failure2 : option string) :
  json_loads line = true →
  length (filter valid before) = 499 →
  let run := download_data json_loads (Stream (before ++ line :: next1 :: after1) failure1) in
  run = download_data json_loads (Stream (before ++ line :: next2 :: after2) failure2) ∧
  fst run = Some (filter valid before ++ [line]) ∧
  ∃ skips, snd run = Starting DATA_URL :: skips ++
    [Success 500 OUTPUT_FILENAME; OpenInVSCode OUTPUT_FILENAME].
Proof.
  intros Hline Hbefore run. subst run.
  assert (Hrun : ∀ next after failure,
    download_data json_loads (Stream (before ++ line :: next :: after) failure) =
    (Some (filter valid before ++ [line]),
     Starting DATA_URL ::
       printed (fst (line_loop json_loads MAX_LINES_TO_SAVE before None (Saver [] 0 [])))
       ++ [Success 500 OUTPUT_FILENAME; OpenInVSCode OUTPUT_FILENAME])).
  { intros next after failure. unfold download_data.
    rewrite line_loop_app by (simpl; unfold MAX_LINES_TO_SAVE; lia).
    destruct (line_loop_outfile json_loads MAX_LINES_TO_SAVE before None (Saver [] 0 []))
      as [Hout Hsaved]; [done|].
    simpl in Hout. rewrite take_ge in Hout by (unfold MAX_LINES_TO_SAVE; lia).
    destruct (fst (line_loop json_loads MAX_LINES_TO_SAVE before None (Saver [] 0 [])))
      as [out saved console].
    simpl in *. subst out. rewrite Hbefore in Hsaved. subst saved.
    by rewrite Hline. }
  split_and!.
  - by rewrite !Hrun.
  - by rewrite Hrun.
  - rewrite Hrun. by eexists.
Qed.
End download_data_more.

Section split_more.


End split_more.

Section files_more.
Local Open Scope Z_scope.
Variable Image_open : list Byte.byte → option image.
Variable Image_save : image → list Byte.byte.
Variable requests_get : string → reply.

Local Abbreviation crop_file := (crop_to_16_9 Image_open Image_save).
Local Abbreviation download := (download_file requests_get).

(** A call of [crop_to_16_9] changes no file but, possibly, its own. *)
Lemma crop_to_16_9_other file_path other w :
  other ≠ file_path → disk (crop_file file_path w) !! other = disk w !! other.
Proof.
  intros Hother.
  destruct (crop_to_16_9_cases Image_open Image_save file_path w)
    as [[-> _]|(img & _ & [[_ ->]|(_ & _ & cropped & _ & _ & ->)])]; simpl;
    [done|done|by rewrite lookup_insert_ne].
Qed.

(** X5: [crop_to_16_9] neither creates nor removes a file: the paths on
    disk are the same after the call; and when its file is missing or does
    not open as an image, the call changes nothing and only prints the
    error line. *)
Theorem crop_to_16_9_keeps_files (file_path : string) (w : world) :
  let w' := crop_file file_path w in
  dom (disk w') = dom (disk w) ∧
  (disk w !! file_path ≫= Image_open = None →
   disk w' = disk w ∧ since w w' = [Print (ErrorProcessing file_path)]).
Proof.
  intros w'. subst w'. split.
  - destruct (crop_to_16_9_cases Image_open Image_save file_path w)
      as [[-> _]|(img & Hopen & [[_ ->]|(_ & _ & cropped & _ & _ & ->)])]; simpl;
      [done|done|].
    rewrite dom_insert_L. apply subseteq_union_1_L, singleton_subseteq_l.
    apply elem_of_dom. destruct (disk w !! file_path); [by eexists|done].
  - intros Hnone. unfold crop_to_16_9. rewrite Hnone.
    split; [done|]. by apply since_app.
Qed.




End files_more.

Section visit_more.
Local Open Scope Z_scope.
Variable Image_open : list Byte.byte → option image.
Variable Image_save : image → list Byte.byte.
Variable requests_get : string → reply.

Local Abbreviation crop_file := (crop_to_16_9 Image_open Image_save).
Local Abbreviation download := (download_file requests_get).
Local Abbreviation visit_element := (visit Image_open Image_save requests_get).

Lemma wait_for_src_first img_element k s w :
  first_src img_element k s →
  wait_for_src img_element (seq 0 5) None w = (Some s, found_at k w).
Proof.
  intros (Hk & Hs & Hpop & Hbefore).
  destruct (wait_for_src_spec img_element 5 0 None w) as [Hdisk Hcases].
  destruct (wait_for_src img_element (seq 0 5) None w) as [src [files events]].
  simpl in Hdisk, Hcases. subst files.
  destruct Hcases as [(k' & Hk' & Hbefore' & Hat & -> & ->)|(Hnone & _)].
  - assert (k' = k) as ->.
    { destruct (Nat.lt_trichotomy k' k) as [Hlt|[?|Hlt]]; [|done|].
      - by rewrite (Hbefore k' Hlt) in Hat.
      - specialize (Hbefore' k Hlt). rewrite Hs in Hbefore'. congruence. }
    by rewrite Hs.
  - specialize (Hnone k Hk). rewrite Hs in Hnone. congruence.
Qed.

(** The visit of an element whose URL is found. *)
Lemma visit_accepted i img_element k s downloaded_count w :
  first_src img_element k s →
  visit_element i img_element downloaded_count w =
    let fetched :=
      download (Some (first_part (split "?"%char s))) (Some (thumbnail_filename i))
        (found_at k w) in
    if truthy (fst fetched) then
      (S downloaded_count, crop_file (default "" (fst fetched)) (snd fetched))
    else (downloaded_count, snd fetched).
Proof.
  intros Hfirst. unfold visit.
  change (seq 0 (Z.to_nat (max_wait_time `quot` wait_step))) with (seq 0 5).
  rewrite (wait_for_src_first _ _ _ _ Hfirst).
  destruct Hfirst as (_ & _ & Hpop & _).
  assert (still_placeholder (Some s) = false) as Hstill.
  { destruct s as [|c s]; simpl in *; [done|]. by rewrite negb_true_iff in Hpop. }
  cbv beta iota zeta. rewrite Hstill.
  change (default "" (Some s)) with s.
  by destruct (download_file requests_get _ _ _).
Qed.

(** A call with a URL and a file name, by the answer of the server. *)
Lemma download_file_reply address name w :
  address ≠ "" →
  download (Some address) (Some name) w =
    let local_path := path_join OUTPUT_DIR name in
    match requests_get address with
    | NoResponse => (None, say (FailedDownload address) (emit (Get address) w))
    | Response status_code chunks complete =>
        if decide (400 ≤ status_code < 600) then
          (None, say (FailedDownload address) (emit (Get address) w))
        else if complete then
          (Some local_path,
           say (Downloaded local_path)
             (store_chunks local_path chunks (emit (Get address) w)))
        else
          (None,
           say (FailedDownload address)
             (store_chunks local_path chunks (emit (Get address) w)))
    end.
Proof. by destruct address. Qed.

Lemma requests_made_app events1 events2 :
  requests_made (events1 ++ events2) = requests_made events1 ++ requests_made events2.
Proof. apply omap_app. Qed.

Lemma requests_idle_polls k : requests_made (idle_polls k) = [].
Proof. induction k as [|k IH]; [done|]. by unfold idle_polls, requests_made in *. Qed.

(** What a call of [download_file] costs: at most one request, no read of
    an attribute, no sleep. *)
Lemma download_file_costs url name w :
  ∃ events, trace (snd (download url (Some name) w)) = trace w ++ events ∧
    requests_made events =
      match url with Some (String c address) => [String c address] | _ => [] end ∧
    reads events = 0%nat ∧ slept events = 0.
Proof.
  unfold download_file. destruct url as [[|c address]|].
  - by exists [Print EmptyURL].
  - destruct (requests_get _) as [|status_code chunks complete].
    + eexists [_; _]. simpl. by rewrite <- !app_assoc.
    + case_decide; [|destruct complete].
      * eexists [_; _]. simpl. by rewrite <- !app_assoc.
      * eexists [_; _; _]. simpl. by rewrite <- !app_assoc.
      * eexists [_; _; _]. simpl. by rewrite <- !app_assoc.
  - by exists [Print EmptyURL].
Qed.

Lemma crop_to_16_9_costs file_path w :
  ∃ events, trace (crop_file file_path w) = trace w ++ events ∧
    requests_made events = [] ∧ reads events = 0%nat ∧ slept events = 0.
Proof.
  destruct (crop_to_16_9_cases Image_open Image_save file_path w)
    as [[-> _]|(img & _ & [[_ ->]|(_ & _ & cropped & _ & _ & ->)])].
  - by eexists [_].
  - by eexists [_].
  - eexists [_; _]. simpl. by rewrite <- !app_assoc.
Qed.

(** X8: an element whose [src] begins with '?' passes the placeholder test
    but is cleaned to the empty URL: [download_file] refuses it, so the visit
    makes no request, writes nothing, prints the empty-URL error and does not
    count the element. Any other accepted [src] is cleaned to a URL that is
    not empty and is requested exactly once. *)
Theorem visit_query_only (i : nat) (img_element : element) (k : nat) (s : string)
    (downloaded_count : nat) (w : world) :
  first_src img_element k s →
  let r := visit_element i img_element downloaded_count w in
  (startswith s "?" = true →
   r = (downloaded_count, say EmptyURL (found_at k w)) ∧
   disk (snd r) = disk w ∧ requests_made (since w (snd r)) = []) ∧
  (startswith s "?" = false →
   first_part (split "?"%char s) ≠ "" ∧
   requests_made (since w (snd r)) = [first_part (split "?"%char s)]).
Proof.
  intros Hfirst r. subst r. rewrite (visit_accepted _ _ _ _ _ _ Hfirst).
  destruct Hfirst as (_ & _ & Hpop & _).
  destruct s as [|c s]; [done|]. simpl startswith. rewrite andb_true_r.
  assert (Hpolls : requests_made (idle_polls k ++ [GetAttribute "src"]) = []).
  { by rewrite requests_made_app, requests_idle_polls. }
  split.
  - intros ->%Ascii.eqb_eq.
    match goal with
    | |- ?run = _ ∧ _ =>
        assert (Hrun : run = (downloaded_count, say EmptyURL (found_at k w)))
          by reflexivity;
        rewrite Hrun
    end.
    simpl snd.
    split_and!; [done|done|].
    rewrite (since_app w _ ((idle_polls k ++ [GetAttribute "src"]) ++ [Print EmptyURL])).
    + by rewrite requests_made_app, Hpolls.
    + simpl. by rewrite <- !app_assoc.
  - intros Hc.
    assert (Hcleaned : ∃ c' cleaned,
      first_part (split "?"%char (String c s)) = String c' cleaned).
    { simpl. rewrite Hc. pose proof (split_nonempty "?"%char s).
      destruct (split "?"%char s); [done|]. by eexists _, _. }
    destruct Hcleaned as (c' & cleaned & Hcleaned). rewrite Hcleaned.
    split; [done|]. cbv zeta.
    destruct (download_file_costs (Some (String c' cleaned))
                (thumbnail_filename i) (found_at k w))
      as (events & Htrace & Hget & _).
    destruct (download_file requests_get _ _ _) as [local_path fetched].
    simpl in Htrace. simpl fst. simpl snd.
    destruct (truthy local_path); simpl snd.
    + destruct (crop_to_16_9_costs (default "" local_path) fetched)
        as (crop_events & Hcrop & Hnone & _).
      rewrite (since_app w _ ((idle_polls k ++ [GetAttribute "src"]) ++
                              events ++ crop_events)).
      * by rewrite requests_made_app, Hpolls, requests_made_app, Hget, Hnone.
      * rewrite Hcrop, Htrace. by rewrite <- !app_assoc.
    + rewrite (since_app w _ ((idle_polls k ++ [GetAttribute "src"]) ++ events)).
      * by rewrite requests_made_app, Hpolls, Hget.
      * rewrite Htrace. by rewrite <- !app_assoc.
Qed.

Lemma printed_idle_polls k : printed_lines (idle_polls k) = [].
Proof. induction k as [|k IH]; [done|]. by unfold idle_polls, printed_lines in *. Qed.

Lemma written_idle_polls k : written_paths (idle_polls k) = [].
Proof. induction k as [|k IH]; [done|]. by unfold idle_polls, written_paths in *. Qed.

(** The visit of an element whose URL is found and whose image arrives
    whole: the file is there, and [crop_to_16_9] is called on it. *)
Lemma visit_downloaded i img_element k s downloaded_count w status_code chunks :
  first_src img_element k s →
  first_part (split "?"%char s) ≠ "" →
  requests_get (first_part (split "?"%char s)) = Response status_code chunks true →
  ¬ (400 ≤ status_code < 600) →
  visit_element i img_element downloaded_count w =
    (S downloaded_count,
     crop_file (thumbnail_path i)
       (World (<[thumbnail_path i := concat chunks]> (disk w))
          (trace w ++ idle_polls k ++
             [GetAttribute "src"; Get (first_part (split "?"%char s));
              Wrote (thumbnail_path i); Print (Downloaded (thumbnail_path i))]))).
Proof.
  intros Hfirst Hcleaned Hreply Hstatus.
  rewrite (visit_accepted _ _ _ _ _ _ Hfirst). cbv zeta.
  rewrite download_file_reply by done. cbv zeta.
  rewrite Hreply, decide_False by done. fold (thumbnail_path i).
  simpl fst. rewrite truthy_thumbnail_path. simpl snd. simpl default.
  do 2 f_equal. unfold say, emit, store_chunks, found_at. simpl.
  by rewrite <- !app_assoc.
Qed.

(** X9: when the body of an accepted element breaks off, the chunks that
    arrived stay on disk as the element's file, a partial file: the visit
    prints the failure, does not crop the file and does not count it. *)
Theorem visit_broken_body (i : nat) (img_element : element) (k : nat) (s : string)
    (downloaded_count : nat) (w : world) (status_code : Z)
    (chunks : list (list Byte.byte)) :
  first_src img_element k s →
  first_part (split "?"%char s) ≠ "" →
  requests_get (first_part (split "?"%char s)) = Response status_code chunks false →
  ¬ (400 ≤ status_code < 600) →
  let r := visit_element i img_element downloaded_count w in
  fst r = downloaded_count ∧
  disk (snd r) = <[thumbnail_path i := concat chunks]> (disk w) ∧
  written_paths (since w (snd r)) = [thumbnail_path i] ∧
  printed_lines (since w (snd r)) = [FailedDownload (first_part (split "?"%char s))].
Proof.
  intros Hfirst Hcleaned Hreply Hstatus r. subst r.
  rewrite (visit_accepted _ _ _ _ _ _ Hfirst). cbv zeta.
  rewrite download_file_reply by done. cbv zeta.
  rewrite Hreply, decide_False by done. fold (thumbnail_path i).
  simpl fst. simpl snd. cbv iota. simpl fst. simpl snd.
  split_and!; [done|done|..];
    rewrite (since_app w _ (idle_polls k ++
      [GetAttribute "src"; Get (first_part (split "?"%char s));
       Wrote (thumbnail_path i);
       Print (FailedDownload (first_part (split "?"%char s)))]))
      by (simpl; by rewrite <- !app_assoc).
  - unfold written_paths. rewrite omap_app. fold (written_paths (idle_polls k)).
    by rewrite written_idle_polls.
  - unfold printed_lines. rewrite omap_app. fold (printed_lines (idle_polls k)).
    by rewrite printed_idle_polls.
Qed.

(** X10: when the image of an accepted element arrives whole but does not
    open as an image, or opens as an image that is not taller than 16:9, the
    file stays exactly as downloaded: the visit reports the download, then
    the error or the skipped crop, and counts the element. *)
Theorem visit_keeps_download (i : nat) (img_element : element) (k : nat) (s : string)
    (downloaded_count : nat) (w : world) (status_code : Z)
    (chunks : list (list Byte.byte)) :
  first_src img_element k s →
  first_part (split "?"%char s) ≠ "" →
  requests_get (first_part (split "?"%char s)) = Response status_code chunks true →
  ¬ (400 ≤ status_code < 600) →
  let r := visit_element i img_element downloaded_count w in
  (Image_open (concat chunks) = None →
   fst r = S downloaded_count ∧
   disk (snd r) = <[thumbnail_path i := concat chunks]> (disk w) ∧
   printed_lines (since w (snd r)) =
     [Downloaded (thumbnail_path i); ErrorProcessing (thumbnail_path i)]) ∧
  (∀ img, Image_open (concat chunks) = Some img → 0 ≤ img_width img →
   img_height img ≤ (img_width img * 9) `div` 16 →
   fst r = S downloaded_count ∧
   disk (snd r) = <[thumbnail_path i := concat chunks]> (disk w) ∧
   printed_lines (since w (snd r)) = [Downloaded (thumbnail_path i); SkippingCrop]).
Proof.
  intros Hfirst Hcleaned Hreply Hstatus r. subst r.
  rewrite (visit_downloaded _ _ _ _ _ _ _ _ Hfirst Hcleaned Hreply Hstatus).
  set (fetched := World _ _).
  assert (Hfile : disk fetched !! thumbnail_path i = Some (concat chunks))
    by apply lookup_insert_eq.
  assert (Hprinted : ∀ line,
    printed_lines (idle_polls k ++
      [GetAttribute "src"; Get (first_part (split "?"%char s));
       Wrote (thumbnail_path i); Print (Downloaded (thumbnail_path i)); Print line]) =
    [Downloaded (thumbnail_path i); line]).
  { intros line. unfold printed_lines. rewrite omap_app.
    fold (printed_lines (idle_polls k)). by rewrite printed_idle_polls. }
  split.
  - intros Hnone. simpl fst. simpl snd.
    assert (crop_file (thumbnail_path i) fetched =
            say (ErrorProcessing (thumbnail_path i)) fetched) as ->.
    { unfold crop_to_16_9. rewrite Hfile. simpl. by rewrite Hnone. }
    split_and!; [done|done|].
    erewrite since_app; [apply Hprinted|]. simpl. by rewrite <- !app_assoc.
  - intros img Hopen HW Hfit. simpl fst. simpl snd.
    assert (crop_file (thumbnail_path i) fetched = say SkippingCrop fetched) as ->.
    { destruct (crop_to_16_9_cases Image_open Image_save (thumbnail_path i) fetched)
        as [[_ Hwhy]|(img' & Hopen' & Hcases)];
        rewrite Hfile in *; simpl in *; rewrite Hopen in *.
      - destruct Hwhy as [?|(? & ? & ?)]; simplify_eq. lia.
      - injection Hopen' as <-. rewrite Z.quot_div_nonneg in Hcases by lia.
        destruct Hcases as [[_ ?]|[? _]]; [done|lia]. }
    split_and!; [done|done|].
    erewrite since_app; [apply Hprinted|]. simpl. by rewrite <- !app_assoc.
Qed.
End visit_more.

Section visit_crop_more.
Local Open Scope Z_scope.
Variable Image_open : list Byte.byte → option image.
Variable Image_save : image → list Byte.byte.
Variable requests_get : string → reply.

Hypothesis reopen_size : ∀ img, well_formed img →
  ∃ img', Image_open (Image_save img) = Some img' ∧ size img' = size img.

Local Abbreviation visit_element := (visit Image_open Image_save requests_get).

End visit_crop_more.

Section scroll_more.
Variable counts : nat → nat.

Lemma written_paths_app events1 events2 :
  written_paths (events1 ++ events2) = written_paths events1 ++ written_paths events2.
Proof. apply omap_app. Qed.

Lemma downloaded_paths_app events1 events2 :
  downloaded_paths (events1 ++ events2) =
  downloaded_paths events1 ++ downloaded_paths events2.
Proof. apply omap_app. Qed.

Lemma printed_lines_app events1 events2 :
  printed_lines (events1 ++ events2) = printed_lines events1 ++ printed_lines events2.
Proof. apply omap_app. Qed.

(** What the scrolling loop does to the outside: it sleeps 2 seconds per
    attempt and neither reads an attribute, nor asks the network, nor writes
    or reports a download. *)
Lemma scroll_loop_events fuel sc w sc' w' :
  scroll_loop fuel counts sc w = Some (sc', w') →
  disk w' = disk w ∧ attempts_made sc ≤ attempts_made sc' ∧
  ∃ events, trace w' = trace w ++ events ∧
    slept events = (2 * (Z.of_nat (attempts_made sc') - Z.of_nat (attempts_made sc)))%Z ∧
    reads events = 0 ∧ requests_made events = [] ∧
    written_paths events = [] ∧ downloaded_paths events = [].
Proof.
  revert sc w. induction fuel as [|fuel IH]; intros sc w; simpl;
    destruct (consecutive_same_count sc <? max_attempts); try done.
  - intros [= <- <-]. split_and!; [done..|]. exists [].
    rewrite app_nil_r. split_and!; [done|simpl; lia|done..].
  - assert (Hstep : ∃ line,
      scroll_once counts sc w =
        (fst (scroll_once counts sc w),
         World (disk w)
           (trace w ++ [ScrollToBottom; Sleep 2; CountRows; Print line])) ∧
      attempts_made (fst (scroll_once counts sc w)) = S (attempts_made sc) ∧
      downloaded_paths [Print line] = []).
    { unfold scroll_once. destruct (_ <? _); eexists;
        unfold say, emit; simpl; by rewrite <- !app_assoc. }
    destruct Hstep as (line & Honce & Hmade & Hline). rewrite Honce.
    intros (Hdisk & Hle & events & Htrace & Hslept & Hreads & Hget & Hwrote & Hdown)%IH.
    simpl in *. rewrite Hmade in *. split_and!; [done|lia|].
    exists ([ScrollToBottom; Sleep 2; CountRows; Print line] ++ events).
    rewrite Htrace, <- app_assoc. split_and!; [done| | | | |].
    + rewrite slept_app, Hslept. simpl. lia.
    + by rewrite reads_app, Hreads.
    + by rewrite requests_made_app, Hget.
    + by rewrite written_paths_app, Hwrote.
    + rewrite downloaded_paths_app, Hdown, app_nil_r. exact Hline.
  - intros [= <- <-]. split_and!; [done..|]. exists [].
    rewrite app_nil_r. split_and!; [done|simpl; lia|done..].
Qed.

(** While the stall counter stays below 10, 10 attempts at most go by per
    row that was found. *)
Lemma attempts_bound n :
  (∀ j, j < n → stall_run counts j < 10) →
  n ≤ 10 * remembered counts n + stall_run counts n.
Proof.
  induction n as [|n IH]; intros Hbelow; simpl; [lia|].
  specialize (IH ltac:(intros j Hj; apply Hbelow; lia)).
  specialize (Hbelow n ltac:(lia)). unfold stalled.
  destruct (Nat.leb_spec (counts n) (remembered counts n)); lia.
Qed.

Lemma remembered_above j n : j < n → counts j ≤ remembered counts n.
Proof.
  induction n as [|n IH]; intros Hj; [lia|]. simpl.
  destruct (decide (j = n)) as [->|?]; [lia|]. specialize (IH ltac:(lia)). lia.
Qed.

Lemma remembered_attained n :
  remembered counts n = 0 ∨ ∃ j, j < n ∧ counts j = remembered counts n.
Proof.
  induction n as [|n IH]; [by left|]. simpl.
  destruct (Nat.max_spec (remembered counts n) (counts n)) as [[_ ->]|[_ ->]].
  - right. exists n. split; [lia|done].
  - destruct IH as [?|(j & Hj & ?)]; [by left|]. right. exists j. split; [lia|done].
Qed.

(** The scroller when [scroll_to_end] returns. *)
Lemma scroll_to_end_final fuel w sc w' :
  scroll_to_end fuel counts w = Some (sc, w') →
  ∃ n w1,
    sc = Scroller (remembered counts n) 10 n ∧
    stall_run counts n = 10 ∧
    (∀ j, j < n → stall_run counts j < 10) ∧
    scroll_loop fuel counts (Scroller 0 0 0) (say Scrolling w) = Some (sc, w1) ∧
    w' = say (FinishedScrolling (remembered counts n)) w1.
Proof.
  unfold scroll_to_end.
  destruct (scroll_loop fuel counts (Scroller 0 0 0) (say Scrolling w))
    as [[sc1 w1]|] eqn:Hloop; [|done].
  intros [= <- <-].
  destruct (scroll_loop_stops counts fuel 0 _ _ _ Hloop)
    as (n & -> & _ & Hfull & Hbefore).
  assert (Hbelow : ∀ j, j < n → stall_run counts j < 10).
  { intros j Hj. apply Hbefore. lia. }
  assert (Hten : stall_run counts n = 10).
  { unfold max_attempts in Hfull. destruct n as [|n]; [simpl in Hfull; lia|].
    pose proof (stall_run_step counts n). specialize (Hbelow n ltac:(lia)). lia. }
  exists n, w1. simpl. rewrite Hten. by split_and!.
Qed.

(** X12: what scrolling costs: when [scroll_to_end] returns, it has slept
    exactly 2 seconds per attempt, has touched neither the disk nor the
    network, and has made at most 10 attempts per video row it found, plus
    10: the time it takes is bounded by the size of the playlist. *)
Theorem scroll_to_end_costs (fuel : nat) (w : world) (sc : scroller) (w' : world) :
  scroll_to_end fuel counts w = Some (sc, w') →
  disk w' = disk w ∧
  slept (since w w') = (2 * Z.of_nat (attempts_made sc))%Z ∧
  reads (since w w') = 0 ∧
  requests_made (since w w') = [] ∧
  written_paths (since w w') = [] ∧
  attempts_made sc ≤ 10 * (last_video_count sc + 1).
Proof.
  intros (n & w1 & -> & Hten & Hbelow & Hloop & ->)%scroll_to_end_final.
  destruct (scroll_loop_events _ _ _ _ _ Hloop)
    as (Hdisk & _ & events & Htrace & Hslept & Hreads & Hget & Hwrote & _).
  simpl in *.
  rewrite (since_app w _ ([Print Scrolling] ++ events ++
             [Print (FinishedScrolling (remembered counts n))]))
    by (simpl; rewrite Htrace; simpl; by rewrite <- !app_assoc).
  split_and!.
  - done.
  - rewrite !slept_app, Hslept. simpl. lia.
  - by rewrite !reads_app, Hreads.
  - by rewrite !requests_made_app, Hget.
  - by rewrite !written_paths_app, Hwrote.
  - pose proof (attempts_bound n Hbelow). lia.
Qed.

(** X13: the total that [scroll_to_end] reports is the largest number of
    rows any of its attempts counted: no attempt counted more, some attempt
    counted exactly that many unless the total is 0, and the line
    "Finished scrolling" with that total is the last one printed. *)
Theorem scroll_to_end_reports_max (fuel : nat) (w : world) (sc : scroller)
    (w' : world) :
  scroll_to_end fuel counts w = Some (sc, w') →
  (∀ j, j < attempts_made sc → counts j ≤ last_video_count sc) ∧
  (last_video_count sc = 0 ∨
   ∃ j, j < attempts_made sc ∧ counts j = last_video_count sc) ∧
  last (printed_lines (since w w')) = Some (FinishedScrolling (last_video_count sc)).
Proof.
  intros (n & w1 & -> & Hten & Hbelow & Hloop & ->)%scroll_to_end_final.
  destruct (scroll_loop_events _ _ _ _ _ Hloop) as (_ & _ & events & Htrace & _).
  simpl in *. split_and!.
  - intros j Hj. by apply remembered_above.
  - apply remembered_attained.
  - rewrite (since_app w _ (([Print Scrolling] ++ events) ++
               [Print (FinishedScrolling (remembered counts n))]))
      by (simpl; rewrite Htrace; simpl; by rewrite <- !app_assoc).
    rewrite printed_lines_app. apply last_snoc.
Qed.
End scroll_more.

Section scroll_to_end_helpers.
Variable counts : nat → nat.

(** The events of a call of [scroll_to_end] that returns. *)
Lemma scroll_to_end_events fuel w sc w' :
  scroll_to_end fuel counts w = Some (sc, w') →
  disk w' = disk w ∧
  ∃ events, trace w' = trace w ++ events ∧
    reads events = 0 ∧ requests_made events = [] ∧
    written_paths events = [] ∧ downloaded_paths events = [].
Proof.
  intros (n & w1 & -> & _ & _ & Hloop & ->)%scroll_to_end_final.
  destruct (scroll_loop_events _ _ _ _ _ _ Hloop)
    as (Hdisk & _ & events & Htrace & _ & Hreads & Hget & Hwrote & Hdown).
  simpl in *. split; [done|].
  exists ([Print Scrolling] ++ events ++
          [Print (FinishedScrolling (remembered counts n))]).
  split_and!.
  - rewrite Htrace. by rewrite <- !app_assoc.
  - by rewrite !reads_app, Hreads.
  - by rewrite !requests_made_app, Hget.
  - by rewrite !written_paths_app, Hwrote.
  - by rewrite !downloaded_paths_app, Hdown.
Qed.

(** Counts that never increase from attempt [N] on end the scrolling within
    [N + 11] attempts. *)
Lemma scroll_to_end_flat w N :
  (∀ i, N ≤ i → counts (S i) ≤ counts i) →
  is_Some (scroll_to_end (N + 11) counts w).
Proof.
  intros Hflat.
  assert (Hbelow : ∀ i, N ≤ i → counts i ≤ counts N).
  { induction 1 as [|i Hi IH]; [done|]. etrans; [by apply Hflat|done]. }
  assert (Hfull : max_attempts ≤ stall_run counts (N + 11)).
  { apply stall_run_window. unfold max_attempts. split; [lia|].
    intros j Hj. unfold stalled. apply Nat.leb_le.
    etrans; [apply Hbelow; lia|].
    etrans; [|apply (remembered_mono counts (S N)); lia]. simpl. lia. }
  destruct (scroll_loop_returns counts (N + 11) 0 (say Scrolling w) (N + 11))
    as [[sc w1] Hloop]; [lia|done|].
  unfold scroll_to_end. simpl in Hloop. by rewrite Hloop.
Qed.
End scroll_to_end_helpers.

Section batch_more.
Local Open Scope Z_scope.
Variable Image_open : list Byte.byte → option image.
Variable Image_save : image → list Byte.byte.
Variable requests_get : string → reply.

Local Abbreviation crop_file := (crop_to_16_9 Image_open Image_save).
Local Abbreviation download := (download_file requests_get).
Local Abbreviation visit_element := (visit Image_open Image_save requests_get).
Local Abbreviation run_loop := (thumbnail_loop Image_open Image_save requests_get).
Local Abbreviation scrape := (scrape_thumbnails Image_open Image_save requests_get).

Lemma still_placeholder_populated src : still_placeholder src = negb (populated src).
Proof. destruct src as [[|c s]|]; simpl; [done| |done]. by rewrite negb_involutive. Qed.

(** What the visit of one element costs. *)
Lemma visit_costs i img_element downloaded_count w :
  ∃ events,
    trace (snd (visit_element i img_element downloaded_count w)) = trace w ++ events ∧
    (reads events ≤ 5)%nat ∧ 0 ≤ slept events ≤ 5 ∧
    (length (requests_made events) ≤ 1)%nat.
Proof.
  unfold visit.
  destruct (wait_for_src_spec img_element 5 0 None w) as [_ Hpoll].
  change (seq 0 (Z.to_nat (max_wait_time `quot` wait_step))) with (seq 0 5).
  destruct (wait_for_src img_element (seq 0 5) None w) as [src waited].
  simpl in Hpoll. rewrite still_placeholder_populated.
  destruct Hpoll as [(k & Hk & _ & Hat & -> & Htrace)|(_ & -> & Htrace)].
  - rewrite Hat. simpl negb. cbv iota.
    destruct (download_file_costs requests_get
                (Some (first_part (split "?"%char (default "" (img_element k)))))
                (thumbnail_filename i) waited)
      as (events & Hfetched & Hget & Hreads & Hslept).
    assert (Hone : (length (requests_made events) ≤ 1)%nat).
    { rewrite Hget. destruct (first_part _); simpl; lia. }
    destruct (download_file requests_get _ _ waited) as [local_path fetched].
    simpl in Hfetched.
    destruct (truthy local_path); simpl snd.
    + destruct (crop_to_16_9_costs Image_open Image_save (default "" local_path) fetched)
        as (crop_events & Hcrop & Hnone & Hreads' & Hslept').
      exists ((idle_polls k ++ [GetAttribute "src"]) ++ events ++ crop_events).
      split_and!.
      * rewrite Hcrop, Hfetched, Htrace. by rewrite <- !app_assoc.
      * rewrite !reads_app, reads_idle_polls, reads_one, Hreads, Hreads'. lia.
      * rewrite !slept_app, slept_idle_polls, Hslept, Hslept'. simpl. lia.
      * rewrite !slept_app, slept_idle_polls, Hslept, Hslept'. simpl. lia.
      * rewrite !requests_made_app, requests_idle_polls, Hnone. simpl.
        rewrite app_nil_r. exact Hone.
    + exists ((idle_polls k ++ [GetAttribute "src"]) ++ events).
      split_and!.
      * rewrite Hfetched, Htrace. by rewrite <- !app_assoc.
      * rewrite !reads_app, reads_idle_polls, reads_one, Hreads. lia.
      * rewrite !slept_app, slept_idle_polls, Hslept. simpl. lia.
      * rewrite !slept_app, slept_idle_polls, Hslept. simpl. lia.
      * rewrite !requests_made_app, requests_idle_polls. simpl. exact Hone.
  - simpl negb. cbv iota.
    exists (idle_polls 5 ++ [Print (SkippingVideo (i + 1) max_wait_time)]).
    split_and!.
    + simpl. rewrite Htrace. by rewrite <- !app_assoc.
    + rewrite reads_app, reads_idle_polls.
      assert (reads [Print (SkippingVideo (i + 1) max_wait_time)] = 0%nat) as ->
        by reflexivity.
      lia.
    + rewrite slept_app, slept_idle_polls. simpl. lia.
    + rewrite slept_app, slept_idle_polls. simpl. lia.
    + rewrite requests_made_app, requests_idle_polls. simpl. lia.
Qed.

(** What a run of the loop costs. *)
Lemma thumbnail_loop_costs i images downloaded_count w :
  ∃ events,
    trace (snd (run_loop i images downloaded_count w)) = trace w ++ events ∧
    (reads events ≤ 5 * length images)%nat ∧
    0 ≤ slept events ≤ 5 * Z.of_nat (length images) ∧
    (length (requests_made events) ≤ length images)%nat ∧
    (downloaded_count ≤ fst (run_loop i images downloaded_count w)
       ≤ downloaded_count + length images)%nat.
Proof.
  revert i downloaded_count w.
  induction images as [|img_element later IH]; intros i downloaded_count w.
  - exists []. simpl. rewrite app_nil_r. split_and!; (done || lia).
  - cbn [thumbnail_loop].
    destruct (visit_costs i img_element downloaded_count w)
      as (events & Htrace & Hreads & Hslept & Hget).
    destruct (visit_events Image_open Image_save requests_get
                i img_element downloaded_count w)
      as (events' & _ & _ & Hdown & Hcount).
    destruct (visit_element i img_element downloaded_count w) as [count visited].
    simpl in Htrace, Hcount.
    destruct (IH (S i) count visited)
      as (rest & Hrest & Hreads' & Hslept' & Hget' & Hbounds).
    exists (events ++ rest). rewrite Hrest, Htrace, <- app_assoc.
    rewrite reads_app, slept_app, requests_made_app, length_app.
    assert ((length (downloaded_paths events') ≤ 1)%nat)
      by (destruct Hdown as [->| ->]; simpl; lia).
    simpl length. split_and!; (done || lia).
Qed.

Lemma download_file_other url name other w :
  other ≠ path_join OUTPUT_DIR name →
  disk (snd (download url (Some name) w)) !! other = disk w !! other.
Proof.
  intros Hother. unfold download_file. destruct url as [[|c address]|]; [done| |done].
  destruct (requests_get _) as [|status_code chunks complete]; [done|].
  case_decide; [done|]. destruct complete; simpl; by rewrite lookup_insert_ne.
Qed.

(** The visit of element [i] changes no file but its own. *)
Lemma visit_other i img_element downloaded_count w other :
  other ≠ thumbnail_path i →
  disk (snd (visit_element i img_element downloaded_count w)) !! other =
  disk w !! other.
Proof.
  intros Hother. unfold visit.
  destruct (wait_for_src_spec img_element 5 0 None w) as [Hdisk _].
  change (seq 0 (Z.to_nat (max_wait_time `quot` wait_step))) with (seq 0 5).
  destruct (wait_for_src img_element (seq 0 5) None w) as [src waited].
  simpl in Hdisk. destruct (still_placeholder src); [by rewrite <- Hdisk|].
  pose proof (download_file_other
    (Some (first_part (split "?"%char (default "" src))))
    (thumbnail_filename i) other waited Hother) as Hfetched.
  destruct (download_file_events requests_get
    (Some (first_part (split "?"%char (default "" src))))
    (thumbnail_filename i) waited) as (events & _ & _ & Hresult).
  destruct (download_file requests_get _ _ waited) as [local_path fetched].
  simpl in Hfetched, Hresult. rewrite <- Hdisk, <- Hfetched.
  destruct Hresult as [[Hpath _]|[Hpath _]]; rewrite Hpath; [done|].
  fold (thumbnail_path i). rewrite truthy_thumbnail_path. simpl.
  by apply crop_to_16_9_other.
Qed.

Lemma thumbnail_loop_other i images downloaded_count w other :
  disk (snd (run_loop i images downloaded_count w)) !! other ≠ disk w !! other →
  ∃ k, (k < length images)%nat ∧ other = thumbnail_path (i + k).
Proof.
  revert i downloaded_count w.
  induction images as [|img_element later IH]; intros i downloaded_count w; [done|].
  cbn [thumbnail_loop].
  pose proof (visit_other i img_element downloaded_count w other) as Hvisit.
  destruct (visit_element i img_element downloaded_count w) as [count visited].
  simpl in Hvisit. intros Hchanged.
  destruct (decide (other = thumbnail_path i)) as [->|Hother].
  - exists 0%nat. rewrite Nat.add_0_r. split; [simpl; lia|done].
  - rewrite <- (Hvisit Hother) in Hchanged.
    destruct (IH _ _ _ Hchanged) as (k & Hk & ->).
    exists (S k). rewrite Nat.add_succ_comm. split; [simpl; lia|done].
Qed.

(** X14: what a batch costs: over [n] located elements the loop reads the
    [src] attribute at most 5n times, sleeps at most 5n seconds, makes at
    most n requests, and raises the count of downloads by at most n. *)
Theorem thumbnail_loop_bounds (images : list element) (downloaded_count : nat)
    (w : world) :
  let r := run_loop 0 images downloaded_count w in
  (reads (since w (snd r)) ≤ 5 * length images)%nat ∧
  0 ≤ slept (since w (snd r)) ≤ 5 * Z.of_nat (length images) ∧
  (length (requests_made (since w (snd r))) ≤ length images)%nat ∧
  (downloaded_count ≤ fst r ≤ downloaded_count + length images)%nat.
Proof.
  intros r. subst r.
  destruct (thumbnail_loop_costs 0 images downloaded_count w)
    as (events & Htrace & Hreads & Hslept & Hget & Hcount).
  by rewrite (since_app _ _ _ Htrace).
Qed.

(** X15: the loop writes to no file but the thumbnails of its elements:
    a path whose content differs after a run is
    [youtube_thumbnails/<i+1>_thumbnail.jpg] for a position [i] of the
    list. *)
Theorem thumbnail_loop_touches_thumbnails (images : list element)
    (downloaded_count : nat) (w : world) (other : string) :
  disk (snd (run_loop 0 images downloaded_count w)) !! other ≠ disk w !! other →
  ∃ i, (i < length images)%nat ∧ other = thumbnail_path i ∧
    other = "youtube_thumbnails/" +:+ pretty (i + 1)%nat +:+ "_thumbnail.jpg".
Proof.
  intros (i & Hi & ->)%thumbnail_loop_other. exists i.
  split_and!; [done|done|]. by rewrite thumbnail_path_eq.
Qed.


(** X17: the whole script. With at least one thumbnail on the page, a run
    that returns ends with the line "Scraping complete" whose count is the
    number of downloads reported in the run, at most the number of
    thumbnails; and the script returns whenever the row counts of the page
    stop increasing from some attempt on. *)
Theorem scrape_thumbnails_complete (pg : page) (w : world) :
  thumbnails pg ≠ [] →
  (∀ fuel w', scrape fuel pg w = Some w' →
     ∃ downloaded_count,
       last (printed_lines (since w w')) =
         Some (ScrapingComplete downloaded_count OUTPUT_DIR) ∧
       downloaded_count = length (downloaded_paths (since w w')) ∧
       (downloaded_count ≤ length (thumbnails pg))%nat) ∧
  ((∃ N, ∀ i, (N ≤ i)%nat → (row_counts pg (S i) ≤ row_counts pg i)%nat) →
   ∃ fuel w', scrape fuel pg w = Some w').
Proof.
  intros Hsome.
  assert (Hrun : ∀ fuel, scrape fuel pg w =
    match scroll_to_end fuel (row_counts pg) (say (Navigating PLAYLIST_URL) w) with
    | None => None
    | Some (_, scrolled) =>
        let r := run_loop 0 (thumbnails pg) 0
                   (say (FoundElements (length (thumbnails pg))) scrolled) in
        Some (say (ScrapingComplete (fst r) OUTPUT_DIR) (snd r))
    end).
  { intros fuel. unfold scrape_thumbnails.
    destruct (scroll_to_end _ _ _) as [[sc scrolled]|]; [|done].
    destruct (thumbnails pg) as [|img_element later] eqn:Himages; [done|].
    rewrite <- Himages.
    by destruct (run_loop 0 (thumbnails pg) 0 _). }
  split.
  - intros fuel w'. rewrite Hrun.
    destruct (scroll_to_end fuel (row_counts pg) (say (Navigating PLAYLIST_URL) w))
      as [[sc scrolled]|] eqn:Hscroll; [|done].
    cbv zeta. intros [= <-].
    destruct (scroll_to_end_events _ _ _ _ _ Hscroll)
      as (_ & events & Htrace & _ & _ & _ & Hdown).
    destruct (thumbnail_loop_events Image_open Image_save requests_get 0
                (thumbnails pg) 0
                (say (FoundElements (length (thumbnails pg))) scrolled))
      as (per_element & Hlen & Hloop & Hcount & Hper).
    pose proof (downloaded_paths_in_order per_element 0
                  (λ k evs Hk, proj2 (Hper k evs Hk))) as Hsub.
    apply sublist_length in Hsub. rewrite length_fmap, length_seq, Hlen in Hsub.
    simpl in Htrace, Hloop, Hcount.
    exists (length (downloaded_paths (mjoin per_element))).
    rewrite Hcount.
    rewrite (since_app w _
      (([Print (Navigating PLAYLIST_URL)] ++ events ++
        [Print (FoundElements (length (thumbnails pg)))] ++ mjoin per_element) ++
       [Print (ScrapingComplete (length (downloaded_paths (mjoin per_element)))
                 OUTPUT_DIR)]))
      by (simpl; rewrite Hloop, Htrace; simpl; by rewrite <- !app_assoc).
    split_and!.
    + rewrite printed_lines_app. apply last_snoc.
    + rewrite !downloaded_paths_app, Hdown. simpl. by rewrite app_nil_r.
    + done.
  - intros [N Hflat].
    destruct (scroll_to_end_flat (row_counts pg) (say (Navigating PLAYLIST_URL) w)
                N Hflat) as [[sc scrolled] Hscroll].
    exists (N + 11)%nat. rewrite Hrun, Hscroll. by eexists.
Qed.
End batch_more.

(** * Part V. The further properties on the sample collaborators *)

Section samples_more.
Local Open Scope Z_scope.

Lemma lazy_element_first :
  first_src lazy_element 2
    "https://i.ytimg.com/vi/abc/hqdefault.jpg?sqp=-oaymwE&rs=AOn4CLB".
Proof.
  split_and!; [lia|reflexivity|reflexivity|].
  intros [|[|j]] Hj; [reflexivity|reflexivity|lia].
Qed.

Lemma query_element_first : first_src query_element 0 "?list=PL3-sRm8xAzY9".
Proof. split_and!; [lia|reflexivity|reflexivity|]. intros j Hj. lia. Qed.

Lemma plain_element_first :
  first_src plain_element 0 "https://i.ytimg.com/vi/txt/hqdefault.jpg".
Proof. split_and!; [lia|reflexivity|reflexivity|]. intros j Hj. lia. Qed.



Lemma lines_after_limit_ignored_witness :
  sample_loads "{}" = true ∧
  length (filter (λ line, sample_loads line = true) (take 501 sample_stream)) = 499%nat ∧
  download_data sample_loads (Stream (take 501 sample_stream ++ ["{}"; "{}"; "oops"]) None) =
  download_data sample_loads (Stream (take 501 sample_stream ++ ["{}"; "oops"]) (Some "reset")).
Proof.
  split; [reflexivity|]. split; [reflexivity|].
  apply (lines_after_limit_ignored sample_loads (take 501 sample_stream) "{}"
           "{}" "oops" ["oops"] [] None (Some "reset")); reflexivity.
Defined.

Lemma crop_to_16_9_keeps_files_witness :
  disk (crop_to_16_9 header_open header_save "missing.jpg" sample_world) =
    disk sample_world.
Proof.
  destruct (crop_to_16_9_keeps_files header_open header_save "missing.jpg" sample_world)
    as [_ Hmissing].
  destruct Hmissing as [Hdisk _]; [reflexivity|exact Hdisk].
Defined.


Lemma visit_query_only_witness :
  visit header_open header_save sample_get 0 query_element 0 (World ∅ []) =
    (0%nat, say EmptyURL (found_at 0 (World ∅ []))).
Proof.
  destruct (visit_query_only header_open header_save sample_get 0 query_element 0
              "?list=PL3-sRm8xAzY9" 0 (World ∅ []) query_element_first)
    as [Hquery _].
  destruct Hquery as [Hrun _]; [reflexivity|exact Hrun].
Defined.

Lemma visit_broken_body_witness :
  disk (snd (visit header_open header_save poor_get 0 lazy_element 0 (World ∅ []))) =
    <[thumbnail_path 0 := [Byte.x00; Byte.x00]]> ∅.
Proof.
  destruct (visit_broken_body header_open header_save poor_get 0 lazy_element 2
              "https://i.ytimg.com/vi/abc/hqdefault.jpg?sqp=-oaymwE&rs=AOn4CLB"
              0 (World ∅ []) 200 [[Byte.x00; Byte.x00]] lazy_element_first)
    as (_ & Hdisk & _); [discriminate|reflexivity|lia|exact Hdisk].
Defined.

Lemma visit_keeps_download_witness :
  fst (visit header_open header_save poor_get 0 plain_element 0 (World ∅ [])) = 1%nat.
Proof.
  destruct (visit_keeps_download header_open header_save poor_get 0 plain_element 0
              "https://i.ytimg.com/vi/txt/hqdefault.jpg"
              0 (World ∅ []) 200 [] plain_element_first)
    as [Hnone _]; [discriminate|reflexivity|lia|].
  destruct Hnone as [Hcount _]; [reflexivity|exact Hcount].
Defined.


Lemma scroll_to_end_costs_witness :
  ∃ sc w',
    scroll_to_end 12 sample_counts (World ∅ []) = Some (sc, w') ∧
    slept (since (World ∅ []) w') = 2 * Z.of_nat (attempts_made sc) ∧
    (attempts_made sc ≤ 10 * (last_video_count sc + 1))%nat.
Proof.
  destruct (scroll_to_end 12 sample_counts (World ∅ [])) as [[sc w']|] eqn:Hrun;
    [|vm_compute in Hrun; discriminate].
  exists sc, w'. split; [reflexivity|].
  destruct (scroll_to_end_costs sample_counts 12 (World ∅ []) sc w' Hrun)
    as (_ & Hslept & _ & _ & _ & Hbound).
  split; [exact Hslept|exact Hbound].
Defined.

Lemma scroll_to_end_reports_max_witness :
  ∃ sc w',
    scroll_to_end 12 sample_counts (World ∅ []) = Some (sc, w') ∧
    last (printed_lines (since (World ∅ []) w')) =
      Some (FinishedScrolling (last_video_count sc)).
Proof.
  destruct (scroll_to_end 12 sample_counts (World ∅ [])) as [[sc w']|] eqn:Hrun;
    [|vm_compute in Hrun; discriminate].
  exists sc, w'. split; [reflexivity|].
  destruct (scroll_to_end_reports_max sample_counts 12 (World ∅ []) sc w' Hrun)
    as (_ & _ & Hlast).
  exact Hlast.
Defined.

Lemma thumbnail_loop_touches_thumbnails_witness :
  ∃ i, (i < 1)%nat ∧
    "youtube_thumbnails/1_thumbnail.jpg" = thumbnail_path i ∧
    "youtube_thumbnails/1_thumbnail.jpg" =
      "youtube_thumbnails/" +:+ pretty (i + 1)%nat +:+ "_thumbnail.jpg".
Proof.
  apply (thumbnail_loop_touches_thumbnails header_open header_save sample_get
           [lazy_element] 0 (World ∅ []) "youtube_thumbnails/1_thumbnail.jpg").
  vm_compute. discriminate.
Defined.


Lemma scrape_thumbnails_complete_witness :
  thumbnails sample_page ≠ [] ∧
  ∃ fuel w',
    scrape_thumbnails header_open header_save sample_get fuel sample_page (World ∅ []) =
      Some w'.
Proof.
  split; [discriminate|].
  destruct (scrape_thumbnails_complete header_open header_save sample_get
              sample_page (World ∅ [])) as [_ Hends]; [discriminate|].
  apply Hends. exists 1%nat. intros [|i] Hi; [lia|]. simpl. lia.
Defined.
End samples_more.
